(** * DeepRead: the document-analysis pipeline of [src/index.tsx]

    A shallow embedding of the upload form, the [handleFileSelect]
    pipeline, the export action and the analytics projections, followed by
    the properties of the design document that concern them.

    Conventions.
    - A JavaScript string is the list of its UTF-16 code units ([jsstring]).
    - A JavaScript number is an exact rational ([Q]); rounding to a double,
      infinities and NaN are not modelled.
    - The browser and the extraction SDK are a [Platform] record: what the
      constructor, the file reader and the service call answer. A promise
      is taken to settle; a request that never does leaves a run at its
      [await], a prefix of the runs described here.
    - React state is the record [AppState]; every setter call and every
      outward effect is appended to a log, in program order. Batching of
      renders is not modelled: the order is that of the calls.
    - The drag highlight of the drop zone ([isDragging]) is local to the
      form and modelled on its own ([zoneStep]). *)

From Stdlib Require Import String Ascii Strings.Byte.
From Stdlib Require Import List NArith ZArith QArith Qminmax Bool Lia.
From Equations Require Import Equations.
Import ListNotations.

Local Open Scope N_scope.

(* ================================================================== *)
(** * Part I. Definitions                                              *)
(* ================================================================== *)

(* ------------------------------------------------------------------ *)
(** ** JavaScript strings                                              *)
(* ------------------------------------------------------------------ *)

Definition jsstring := list N.

(** An ASCII literal of the source, as code units. *)
Definition lit (s : string) : jsstring :=
  map (fun c => N_of_ascii c) (list_ascii_of_string s).

Fixpoint str_eqb (s t : jsstring) : bool :=
  match s, t with
  | [], [] => true
  | c :: s', d :: t' => (c =? d) && str_eqb s' t'
  | _, _ => false
  end.

(** [s.endsWith(x)]: the last [length x] units of [s] are [x]. *)
Definition endsWith (s x : jsstring) : bool :=
  (length x <=? length s)%nat && str_eqb (skipn (length s - length x) s) x.

(** [xs.includes(x)] on an array of strings (strict equality). *)
Definition includes (xs : list jsstring) (x : jsstring) : bool :=
  existsb (str_eqb x) xs.

(** Truthiness of a string: only the empty string is falsy. *)
Definition nonempty (s : jsstring) : bool :=
  match s with [] => false | _ :: _ => true end.

(** [a || b] on strings. *)
Definition str_or (a b : jsstring) : jsstring := if nonempty a then a else b.

(** [s.split(sep)] for a one-unit separator: the segments between
    successive occurrences of [sep]; never empty. *)
Fixpoint split (sep : N) (s : jsstring) : list jsstring :=
  match s with
  | [] => [[]]
  | c :: r =>
      if c =? sep then [] :: split sep r
      else match split sep r with
           | seg :: segs => (c :: seg) :: segs
           | [] => [[c]]
           end
  end.

Definition comma : N := 44.
Definition underscore : N := 95.

(** [\s] of an ECMAScript regular expression: WhiteSpace and
    LineTerminator code points. *)
Definition isWhiteSpace (c : N) : bool :=
  ((9 <=? c) && (c <=? 13)) || (c =? 32) || (c =? 160) || (c =? 5760)
  || ((8192 <=? c) && (c <=? 8202)) || (c =? 8232) || (c =? 8233)
  || (c =? 8239) || (c =? 8287) || (c =? 12288) || (c =? 65279).

(** The longest prefix of [s] whose units all satisfy [p], and the rest:
    what a greedy [p+] consumes at the current position. *)
Fixpoint span (p : N -> bool) (s : jsstring) : jsstring * jsstring :=
  match s with
  | c :: r => if p c then let (run, rest) := span p r in (c :: run, rest)
              else ([], s)
  | [] => ([], [])
  end.

Lemma span_length (p : N -> bool) (s : jsstring) :
  (length (snd (span p s)) <= length s)%nat.
Proof.
  induction s as [|c r IH]; simpl; [lia|].
  destruct (p c); [|simpl; lia].
  destruct (span p r); simpl in *; lia.
Qed.

(** [s.replace(/\s+/g, x)]: scanning left to right, a position where
    [\s+] matches is replaced, with the whole greedy match, by [x]; any
    other unit is copied. *)
Equations? replace_ws (x : jsstring) (s : jsstring) : jsstring
  by wf (length s) lt :=
  replace_ws x [] := [];
  replace_ws x (c :: r) with isWhiteSpace c := {
    | true := x ++ replace_ws x (snd (span isWhiteSpace r));
    | false := c :: replace_ws x r }.
Proof.
  pose proof (span_length isWhiteSpace r). lia.
Qed.

(* ------------------------------------------------------------------ *)
(** ** JSON values and [JSON.parse]                                    *)
(* ------------------------------------------------------------------ *)

(** A parsed JSON text. An object keeps its members in textual order. *)
#[warnings="-register-all"]
Inductive json :=
| JNull
| JBool (b : bool)
| JNumber (q : Q)
| JString (s : jsstring)
| JArray (items : list json)
| JObject (members : list (jsstring * json)).

(** [!v] is false: every value but [null], [false], [0] and the empty
    string. *)
Definition truthy (v : json) : bool :=
  match v with
  | JNull => false
  | JBool b => b
  | JNumber q => negb (Qeq_bool q 0)
  | JString s => nonempty s
  | JArray _ | JObject _ => true
  end.

(** Own property [k] of an object built by [JSON.parse]: a later member
    overwrites an earlier one of the same name. *)
Fixpoint lookup (k : jsstring) (ms : list (jsstring * json)) : option json :=
  match ms with
  | [] => None
  | (k', v) :: rest =>
      match lookup k rest with
      | Some w => Some w
      | None => if str_eqb k k' then Some v else None
      end
  end.

(** [v.k] for a value that is neither [null] nor [undefined]; [None] is
    [undefined]. Only the members of an object are modelled. *)
Definition get (v : json) (k : jsstring) : option json :=
  match v with
  | JObject ms => lookup k ms
  | _ => None
  end.

Definition isJsonWs (c : N) : bool :=
  (c =? 32) || (c =? 9) || (c =? 10) || (c =? 13).

Definition isDigit (c : N) : bool := (48 <=? c) && (c <=? 57).

Fixpoint skip_ws (s : jsstring) : jsstring :=
  match s with
  | c :: r => if isJsonWs c then skip_ws r else s
  | [] => []
  end.

Definition hexval (c : N) : option N :=
  if isDigit c then Some (c - 48)
  else if (97 <=? c) && (c <=? 102) then Some (c - 87)
  else if (65 <=? c) && (c <=? 70) then Some (c - 55)
  else None.

(** The unit a one-letter escape stands for. *)
Definition unescape (e : N) : option N :=
  if e =? 34 then Some 34            (* quote *)
  else if e =? 92 then Some 92       (* backslash *)
  else if e =? 47 then Some 47       (* slash *)
  else if e =? 98 then Some 8        (* b *)
  else if e =? 102 then Some 12      (* f *)
  else if e =? 110 then Some 10      (* n *)
  else if e =? 114 then Some 13      (* r *)
  else if e =? 116 then Some 9       (* t *)
  else None.

Definition hex4 (a b c d : N) : option N :=
  match hexval a, hexval b, hexval c, hexval d with
  | Some x, Some y, Some z, Some w => Some (((x * 16 + y) * 16 + z) * 16 + w)
  | _, _, _, _ => None
  end.

(** The characters of a string literal after its opening quote, up to the
    closing one, and what follows. *)
Fixpoint parse_string (s : jsstring) : option (jsstring * jsstring) :=
  match s with
  | [] => None
  | c :: r =>
      if c =? 34 then Some ([], r)
      else if c =? 92 then
        match r with
        | [] => None
        | e :: r1 =>
            if e =? 117 then
              match r1 with
              | h1 :: h2 :: h3 :: h4 :: r2 =>
                  match hex4 h1 h2 h3 h4, parse_string r2 with
                  | Some u, Some (body, rest) => Some (u :: body, rest)
                  | _, _ => None
                  end
              | _ => None
              end
            else
              match unescape e, parse_string r1 with
              | Some u, Some (body, rest) => Some (u :: body, rest)
              | _, _ => None
              end
        end
      else if c <? 32 then None
      else match parse_string r with
           | Some (body, rest) => Some (c :: body, rest)
           | None => None
           end
  end.

(** Decimal value of a run of digits. *)
Definition digits_value (ds : jsstring) : N :=
  fold_left (fun acc d => acc * 10 + (d - 48)) ds 0.

(** [m * 10^e] as a reduced fraction. *)
Definition scale10 (m : Z) (e : Z) : Q :=
  Qred (if (0 <=? e)%Z then Qmake (m * 10 ^ e) 1
        else Qmake m (Z.to_pos (10 ^ (- e)))).

(** The integer part of a number: a single zero, or a run of digits that
    does not start with zero. *)
Definition parse_int (s : jsstring) : option (jsstring * jsstring) :=
  match s with
  | [] => None
  | d :: r =>
      if d =? 48 then Some ([d], r)
      else if isDigit d then Some (span isDigit s)
      else None
  end.

Definition parse_frac (s : jsstring) : option (jsstring * jsstring) :=
  match s with
  | c :: r =>
      if c =? 46 then
        match span isDigit r with
        | ([], _) => None
        | (ds, rest) => Some (ds, rest)
        end
      else Some ([], s)
  | [] => Some ([], s)
  end.

(** The digits of an exponent, with the sign read before them. *)
Definition exp_digits (neg : bool) (s : jsstring) : option (Z * jsstring) :=
  match span isDigit s with
  | ([], _) => None
  | (ds, rest) =>
      let e := Z.of_N (digits_value ds) in
      Some (if neg then (- e)%Z else e, rest)
  end.

Definition parse_exp (s : jsstring) : option (Z * jsstring) :=
  match s with
  | c :: r =>
      if (c =? 101) || (c =? 69) then
        match r with
        | g :: r' => if g =? 45 then exp_digits true r'
                     else if g =? 43 then exp_digits false r'
                     else exp_digits false r
        | [] => exp_digits false r
        end
      else Some (0%Z, s)
  | [] => Some (0%Z, s)
  end.

(** A number after its optional minus sign. *)
Definition unsigned_number (neg : bool) (s1 : jsstring) : option (Q * jsstring) :=
  match parse_int s1 with
  | None => None
  | Some (ip, s2) =>
      match parse_frac s2 with
      | None => None
      | Some (fd, s3) =>
          match parse_exp s3 with
          | None => None
          | Some (e, s4) =>
              let m := Z.of_N (digits_value (ip ++ fd)) in
              Some (scale10 (if neg then (- m)%Z else m)
                            (e - Z.of_nat (length fd)), s4)
          end
      end
  end.

Definition parse_number (s : jsstring) : option (Q * jsstring) :=
  match s with
  | c :: r => if c =? 45 then unsigned_number true r
              else unsigned_number false s
  | [] => None
  end.

(** [s] starts with the keyword [w]: the rest after it. *)
Fixpoint strip_prefix (w s : jsstring) : option jsstring :=
  match w, s with
  | [], _ => Some s
  | a :: w', b :: s' => if a =? b then strip_prefix w' s' else None
  | _ :: _, [] => None
  end.

(** Recursive descent over the JSON grammar. [fuel] bounds the number of
    nested calls; [JSON_parse] supplies more than any text can use. *)
Fixpoint parse_value (fuel : nat) (s : jsstring) : option (json * jsstring) :=
  match fuel with
  | O => None
  | S n =>
      match skip_ws s with
      | [] => None
      | c :: r =>
          if c =? 123 then                      (* { *)
            match skip_ws r with
            | d :: r' => if d =? 125 then Some (JObject [], r')
                         else option_map (fun '(ms, rest) => (JObject ms, rest))
                                         (parse_members n r [])
            | [] => None
            end
          else if c =? 91 then                  (* [ *)
            match skip_ws r with
            | d :: r' => if d =? 93 then Some (JArray [], r')
                         else option_map (fun '(vs, rest) => (JArray vs, rest))
                                         (parse_elements n r [])
            | [] => None
            end
          else if c =? 34 then
            option_map (fun '(str, rest) => (JString str, rest)) (parse_string r)
          else if c =? 116 then
            option_map (fun rest => (JBool true, rest)) (strip_prefix (lit "rue") r)
          else if c =? 102 then
            option_map (fun rest => (JBool false, rest)) (strip_prefix (lit "alse") r)
          else if c =? 110 then
            option_map (fun rest => (JNull, rest)) (strip_prefix (lit "ull") r)
          else
            option_map (fun '(q, rest) => (JNumber q, rest)) (parse_number (c :: r))
      end
  end

with parse_elements (fuel : nat) (s : jsstring) (acc : list json)
  : option (list json * jsstring) :=
  match fuel with
  | O => None
  | S n =>
      match parse_value n s with
      | None => None
      | Some (v, r) =>
          match skip_ws r with
          | d :: r' =>
              if d =? 44 then parse_elements n r' (v :: acc)
              else if d =? 93 then Some (rev (v :: acc), r')
              else None
          | [] => None
          end
      end
  end

with parse_members (fuel : nat) (s : jsstring) (acc : list (jsstring * json))
  : option (list (jsstring * json) * jsstring) :=
  match fuel with
  | O => None
  | S n =>
      match skip_ws s with
      | q :: r0 =>
          if q =? 34 then
            match parse_string r0 with
            | None => None
            | Some (k, r1) =>
                match skip_ws r1 with
                | col :: r2 =>
                    if col =? 58 then
                      match parse_value n r2 with
                      | None => None
                      | Some (v, r3) =>
                          match skip_ws r3 with
                          | d :: r4 =>
                              if d =? 44 then parse_members n r4 ((k, v) :: acc)
                              else if d =? 125 then Some (rev ((k, v) :: acc), r4)
                              else None
                          | [] => None
                          end
                      end
                    else None
                | [] => None
                end
            end
          else None
      | [] => None
      end
  end.

(** [JSON.parse(text)]: one value, surrounded by optional white space.
    [None] stands for the [SyntaxError] the platform throws. *)
Definition JSON_parse (text : jsstring) : option json :=
  match parse_value (2 * length text + 2) text with
  | Some (v, rest) => match skip_ws rest with [] => Some v | _ => None end
  | None => None
  end.

(* ------------------------------------------------------------------ *)
(** ** Base-64 and data URLs ([FileReader.readAsDataURL])              *)
(* ------------------------------------------------------------------ *)

(** The character of the standard alphabet (RFC 4648) for a sextet. *)
Definition b64_char (n : N) : N :=
  if n <? 26 then 65 + n
  else if n <? 52 then 97 + (n - 26)
  else if n <? 62 then 48 + (n - 52)
  else if n =? 62 then 43
  else 47.

Definition b64_pad : N := 61.

(** The sextet a character of the alphabet stands for. *)
Definition b64_value (c : N) : option N :=
  if (65 <=? c) && (c <=? 90) then Some (c - 65)
  else if (97 <=? c) && (c <=? 122) then Some (c - 97 + 26)
  else if (48 <=? c) && (c <=? 57) then Some (c - 48 + 52)
  else if c =? 43 then Some 62
  else if c =? 47 then Some 63
  else None.

Definition byte_of_N (n : N) : byte :=
  match Byte.of_N n with Some b => b | None => x00 end.

(** Three bytes become four characters; a last group of one or two bytes
    is padded with [=]. *)
Fixpoint base64_encode (bs : list byte) : jsstring :=
  match bs with
  | [] => []
  | [a] =>
      let a := Byte.to_N a in
      [b64_char (a / 4); b64_char ((a mod 4) * 16); b64_pad; b64_pad]
  | [a; b] =>
      let a := Byte.to_N a in
      let b := Byte.to_N b in
      [b64_char (a / 4); b64_char ((a mod 4) * 16 + b / 16);
       b64_char ((b mod 16) * 4); b64_pad]
  | a :: b :: c :: rest =>
      let a := Byte.to_N a in
      let b := Byte.to_N b in
      let c := Byte.to_N c in
      b64_char (a / 4) :: b64_char ((a mod 4) * 16 + b / 16)
      :: b64_char ((b mod 16) * 4 + c / 64) :: b64_char (c mod 64)
      :: base64_encode rest
  end.

(** The receiving side: groups of four characters back to bytes; padding
    is accepted in the last group only. *)
Fixpoint base64_decode (s : jsstring) : option (list byte) :=
  match s with
  | [] => Some []
  | c1 :: c2 :: c3 :: c4 :: rest =>
      match b64_value c1, b64_value c2 with
      | Some s1, Some s2 =>
          let b1 := byte_of_N (s1 * 4 + s2 / 16) in
          if c4 =? b64_pad then
            match rest with
            | [] =>
                if c3 =? b64_pad then Some [b1]
                else match b64_value c3 with
                     | Some s3 =>
                         Some [b1; byte_of_N ((s2 mod 16) * 16 + s3 / 4)]
                     | None => None
                     end
            | _ :: _ => None
            end
          else
            match b64_value c3, b64_value c4, base64_decode rest with
            | Some s3, Some s4, Some bytes =>
                Some (b1 :: byte_of_N ((s2 mod 16) * 16 + s3 / 4)
                         :: byte_of_N ((s3 mod 4) * 64 + s4) :: bytes)
            | _, _, _ => None
            end
      | _, _ => None
      end
  | _ => None
  end.

(** The browser's [File]: its name, the media type the browser declares
    for it (possibly empty) and its bytes. *)
Record File := {
  name : jsstring;
  type : jsstring;
  content : list byte
}.

(** The data URL the reader produces for a file (RFC 2397):
    [data:<media type>;base64,<payload>]. A file with no declared type is
    labelled [application/octet-stream]. *)
Definition dataURL (f : File) : jsstring :=
  lit "data:" ++ str_or (type f) (lit "application/octet-stream")
  ++ lit ";base64," ++ base64_encode (content f).

(* ------------------------------------------------------------------ *)
(** ** Application state, effects and the platform                     *)
(* ------------------------------------------------------------------ *)

Inductive ViewState := upload | processing | dashboard.
Inductive DashboardTab := overview | concepts | visuals | full_report.

(** The four [useState] cells of [App]. [data] is [JNull] for [null]. *)
Record AppState := {
  view : ViewState;
  activeTab : DashboardTab;
  data : json;
  error : option jsstring
}.

Definition initial : AppState :=
  {| view := upload; activeTab := overview; data := JNull; error := None |}.

(** Values that are thrown, or that a promise is rejected with. A
    [ProgressEvent] (the reader's error event) has no [message]. *)
Inductive exn :=
| Error (message : jsstring)
| SyntaxError (message : jsstring)
| TypeError (message : jsstring)
| ProgressEvent.

Definition message_of (e : exn) : option jsstring :=
  match e with
  | Error m | SyntaxError m | TypeError m => Some m
  | ProgressEvent => None
  end.

(** [err.message || fallback]. *)
Definition message_or (e : exn) (fallback : jsstring) : jsstring :=
  match message_of e with
  | Some m => str_or m fallback
  | None => fallback
  end.

(** The response schema sent with the request. *)
#[warnings="-register-all"]
Inductive Schema :=
| SString (description : option jsstring)
| SInteger (description : option jsstring)
| SArray (items : Schema)
| SObject (properties : list (jsstring * Schema)) (required : list jsstring).

Inductive Part :=
| InlineData (mimeType : jsstring) (data64 : option jsstring)
| Text (text : jsstring).

Record GenerateContentParameters := {
  model : jsstring;
  role : jsstring;
  parts : list Part;
  responseMimeType : jsstring;
  responseSchema : Schema
}.

Record Blob := {
  blobParts : list (option json);
  blobType : jsstring
}.

(** What the program does to the outside, and every state setter it
    calls, in program order. *)
Inductive Effect :=
| SetView (v : ViewState)
| SetActiveTab (t : DashboardTab)
| SetData (d : json)
| SetError (e : option jsstring)
| Alert (msg : jsstring)
| ConsoleError (e : exn)
| CallGenerateContent (req : GenerateContentParameters)
| WindowPrint
| Download (filename : jsstring) (blob : Blob).

(** The collaborators the source calls but does not define. *)
Record Platform := {
  (** [new GoogleGenAI(...)]: [Some e] when the constructor throws [e]. *)
  newGoogleGenAI : option exn;
  (** [reader.onerror] fires instead of [reader.onload]. *)
  readFails : File -> bool;
  (** [ai.models.generateContent]: rejected with a value, or resolved with
      a result whose [text] is a string or [undefined]. *)
  generateContent : GenerateContentParameters -> exn + option jsstring;
  (** The engine's wording of its own errors. *)
  syntaxErrorMessage : jsstring;
  typeErrorMessage : jsstring
}.

Record World := {
  app : AppState;
  log : list Effect
}.

(** Computations of the event handlers: state, log and exceptions. A
    thrown value keeps the state changes made before it. *)
Definition M (A : Type) : Type := World -> (exn + A) * World.

Definition ret {A} (a : A) : M A := fun w => (inr a, w).

Definition bind {A B} (m : M A) (k : A -> M B) : M B :=
  fun w => match m w with
           | (inr a, w') => k a w'
           | (inl e, w') => (inl e, w')
           end.

Definition throw {A} (e : exn) : M A := fun w => (inl e, w).

Definition try_catch {A} (body : M A) (handler : exn -> M A) : M A :=
  fun w => match body w with
           | (inr a, w') => (inr a, w')
           | (inl e, w') => handler e w'
           end.

Declare Scope handler_scope.
Delimit Scope handler_scope with handler.
Notation "x <- m ;; k" := (bind m (fun x => k))
  (at level 61, m at next level, right associativity) : handler_scope.
Notation "m ;; k" := (bind m (fun _ => k))
  (at level 61, right associativity) : handler_scope.

Definition emit (e : Effect) : M unit :=
  fun w => (inr tt, {| app := app w; log := log w ++ [e] |}).

Definition update (f : AppState -> AppState) (e : Effect) : M unit :=
  fun w => (inr tt, {| app := f (app w); log := log w ++ [e] |}).

Definition setView (v : ViewState) : M unit :=
  update (fun s => {| view := v; activeTab := activeTab s;
                      data := data s; error := error s |}) (SetView v).

Definition setActiveTab (t : DashboardTab) : M unit :=
  update (fun s => {| view := view s; activeTab := t;
                      data := data s; error := error s |}) (SetActiveTab t).

Definition setData (d : json) : M unit :=
  update (fun s => {| view := view s; activeTab := activeTab s;
                      data := d; error := error s |}) (SetData d).

Definition setError (e : option jsstring) : M unit :=
  update (fun s => {| view := view s; activeTab := activeTab s;
                      data := data s; error := e |}) (SetError e).

Definition getData : M json := fun w => (inr (data (app w)), w).

(** A promise that settles: its value, or its rejection thrown at the
    [await]. *)
Definition await {A} (r : exn + A) : M A :=
  match r with inl e => throw e | inr a => ret a end.

Local Open Scope handler_scope.

(* ------------------------------------------------------------------ *)
(** ** [FileUpload]: intake and validation (lines 50-90)               *)
(* ------------------------------------------------------------------ *)

Definition validTypes : list jsstring :=
  [lit "text/markdown"; lit "text/plain"; lit "application/pdf"].

Definition isMd (file : File) : bool :=
  endsWith (name file) (lit ".md") || endsWith (name file) (lit ".markdown").

Definition isPdf (file : File) : bool :=
  str_eqb (type file) (lit "application/pdf")
  || endsWith (name file) (lit ".pdf").

Definition rejection_notice : jsstring :=
  lit "Please upload a PDF or Markdown file.".

(** [validateAndProcess]: hands the file to [onFileSelect], or raises the
    browser's alert box. *)
Definition validateAndProcess (onFileSelect : File -> M unit) (file : File)
  : M unit :=
  if isMd file || isPdf file || includes validTypes (type file)
  then onFileSelect file
  else emit (Alert rejection_notice).

(** [handleDrop] and [handleChange]: the first file of the event's file
    list, when there is one. *)
Definition handleDrop (onFileSelect : File -> M unit) (files : list File)
  : M unit :=
  match files with
  | file :: _ => validateAndProcess onFileSelect file
  | [] => ret tt
  end.

Definition handleChange (onFileSelect : File -> M unit) (files : list File)
  : M unit :=
  match files with
  | file :: _ => validateAndProcess onFileSelect file
  | [] => ret tt
  end.

(* ------------------------------------------------------------------ *)
(** ** [handleFileSelect]: encode, request, parse (lines 228-345)      *)
(* ------------------------------------------------------------------ *)

(** [readFileBase64]: the reader's data URL, cut at its commas, second
    piece; [None] is [undefined]. The promise is rejected with the error
    event when the read fails. *)
Definition readFileBase64 (p : Platform) (f : File)
  : exn + option jsstring :=
  if readFails p f then inl ProgressEvent
  else inr (nth_error (split comma (dataURL f)) 1).

(** Line 251. *)
Definition mimeType (file : File) : jsstring :=
  str_or (type file)
         (if endsWith (name file) (lit ".md") then lit "text/plain"
          else lit "application/pdf").

(** Line 314: the tag that travels with the payload. *)
Definition inlineMimeType (file : File) : jsstring :=
  if str_eqb (mimeType file) (lit "text/markdown") then lit "text/plain"
  else mimeType file.

Definition analysisSchema : Schema :=
  SObject
    [ (lit "metadata",
       SObject
         [ (lit "title", SString None);
           (lit "author", SString None);
           (lit "genre", SString None);
           (lit "readingTime",
            SString (Some (lit "Estimated reading time for the document"))) ]
         [lit "title"; lit "author"; lit "genre"; lit "readingTime"]);
      (lit "executiveSummary", SString None);
      (lit "keyConcepts",
       SArray
         (SObject
            [ (lit "term", SString None);
              (lit "definition", SString None);
              (lit "importance", SInteger (Some (lit "Relevance score 1-100"))) ]
            [lit "term"; lit "definition"; lit "importance"]));
      (lit "chapterBreakdown",
       SArray
         (SObject
            [ (lit "title", SString None);
              (lit "summary", SString None);
              (lit "insight",
               SString (Some (lit "One sentence critical takeaway"))) ]
            [lit "title"; lit "summary"; lit "insight"]));
      (lit "topicStats",
       SArray
         (SObject
            [ (lit "topic", SString None);
              (lit "relevance", SInteger (Some (lit "1-100"))) ]
            [lit "topic"; lit "relevance"]));
      (lit "fullMarkdownReport",
       SString
         (Some (lit "A complete, well-formatted Markdown study note of the document."))) ]
    [lit "metadata"; lit "executiveSummary"; lit "keyConcepts";
     lit "chapterBreakdown"; lit "topicStats"; lit "fullMarkdownReport"].

Definition instruction : jsstring :=
  lit "Analyze this document thoroughly. Create a comprehensive reading note. Be analytical, identifying deep structures and arguments. Ensure the fullMarkdownReport is formatted beautifully with headers, lists, and bold text.".

(** Lines 311-330: the one request of a submission. *)
Definition request (file : File) (base64Data : option jsstring)
  : GenerateContentParameters :=
  {| model := lit "gemini-2.5-flash";
     role := lit "user";
     parts := [InlineData (inlineMimeType file) base64Data; Text instruction];
     responseMimeType := lit "application/json";
     responseSchema := analysisSchema |}.

Definition handleFileSelect (p : Platform) (file : File) : M unit :=
  setView processing ;;
  setError None ;;
  try_catch
    (await (match newGoogleGenAI p with Some e => inl e | None => inr tt end) ;;
     base64Data <- await (readFileBase64 p file) ;;
     emit (CallGenerateContent (request file base64Data)) ;;
     responseText <- await (generateContent p (request file base64Data)) ;;
     match responseText with
     | None | Some [] => throw (Error (lit "No content generated"))
     | Some text =>
         match JSON_parse text with
         | None => throw (SyntaxError (syntaxErrorMessage p))
         | Some jsonResponse =>
             setData jsonResponse ;;
             setView dashboard
         end
     end)
    (fun err =>
       emit (ConsoleError err) ;;
       setError (Some (message_or err (lit "Failed to process file."))) ;;
       setView upload).

(* ------------------------------------------------------------------ *)
(** ** [handleDownload] (lines 347-358)                                *)
(* ------------------------------------------------------------------ *)

(** [o.k] where [o] may be [undefined] or [null]: a [TypeError] then. *)
Definition member (p : Platform) (o : option json) (k : jsstring)
  : exn + option json :=
  match o with
  | None | Some JNull => inl (TypeError (typeErrorMessage p))
  | Some v => inr (get v k)
  end.

(** [t.replace(/\s+/g, '_')] where [t] may be any value: only a string
    has the method. *)
Definition call_replace (p : Platform) (t : option json) : exn + jsstring :=
  match t with
  | Some (JString s) => inr (replace_ws [underscore] s)
  | _ => inl (TypeError (typeErrorMessage p))
  end.

Definition handleDownload (p : Platform) : M unit :=
  d <- getData ;;
  if negb (truthy d) then ret tt
  else
    let blob := {| blobParts := [get d (lit "fullMarkdownReport")];
                   blobType := lit "text/markdown" |} in
    metadata <- await (member p (Some d) (lit "metadata")) ;;
    title <- await (member p metadata (lit "title")) ;;
    slug <- await (call_replace p title) ;;
    emit (Download (slug ++ lit "_Notes.md") blob).

(* ------------------------------------------------------------------ *)
(** ** [App]: what is on screen, and what an event does (lines 360-526) *)
(* ------------------------------------------------------------------ *)

(** The branch of [App]'s render that is taken. *)
Inductive Screen :=
| UploadScreen (banner : option jsstring)
| ProcessingScreen
| Blank
| DashboardScreen (d : json) (tab : DashboardTab).

(** The dashboard is listed with whatever truthy value [data] holds. For
    a value that lacks what the active tab reads, React's render throws
    and the page goes blank; the dashboard events below are then more
    than the user has. *)
Definition render (s : AppState) : Screen :=
  match view s with
  | upload =>
      UploadScreen (match error s with
                    | Some e => if nonempty e then Some e else None
                    | None => None
                    end)
  | processing => ProcessingScreen
  | dashboard =>
      if truthy (data s) then DashboardScreen (data s) (activeTab s) else Blank
  end.

(** The user's actions on the rendered elements. *)
Inductive Event :=
| DropFiles (files : list File)
| ChooseFiles (files : list File)
| ClickLogo
| ClickPrint
| ClickExport
| ClickTab (t : DashboardTab).

(** The handler an element of the current screen runs for an event;
    [None] when the screen has no such element. *)
Definition handler (p : Platform) (s : AppState) (e : Event) : option (M unit) :=
  match render s, e with
  | UploadScreen _, DropFiles files => Some (handleDrop (handleFileSelect p) files)
  | UploadScreen _, ChooseFiles files => Some (handleChange (handleFileSelect p) files)
  | DashboardScreen _ _, ClickLogo => Some (setView upload)
  | DashboardScreen _ _, ClickPrint => Some (emit WindowPrint)
  | DashboardScreen _ _, ClickExport => Some (handleDownload p)
  | DashboardScreen _ _, ClickTab t => Some (setActiveTab t)
  | _, _ => None
  end.

(** One event, run to completion from state [s] with an empty log: the
    outcome of the handler (an uncaught exception, or normal return) and
    the resulting state and log. *)
Definition dispatch (p : Platform) (s : AppState) (e : Event)
  : option ((exn + unit) * World) :=
  option_map (fun h => h {| app := s; log := [] |}) (handler p s e).

(** The views requested by the [setView] calls of a log, in order. *)
Fixpoint views_set (l : list Effect) : list ViewState :=
  match l with
  | [] => []
  | SetView v :: r => v :: views_set r
  | _ :: r => views_set r
  end.

(** The requests sent to the extraction service, in order. *)
Fixpoint requests_sent (l : list Effect) : list GenerateContentParameters :=
  match l with
  | [] => []
  | CallGenerateContent r :: rest => r :: requests_sent rest
  | _ :: rest => requests_sent rest
  end.

(* ------------------------------------------------------------------ *)
(** ** The declared type [AnalysisData] (lines 19-42)                  *)
(* ------------------------------------------------------------------ *)

Record Metadata := {
  title : jsstring;
  author : jsstring;
  genre : jsstring;
  readingTime : jsstring
}.

Record KeyConcept := {
  term : jsstring;
  definition : jsstring;
  importance : Q
}.

Module Chapter.
Record t := {
  title : jsstring;
  summary : jsstring;
  insight : jsstring
}.
End Chapter.

Record TopicStat := {
  topic : jsstring;
  relevance : Q
}.

Record AnalysisData := {
  metadata : Metadata;
  executiveSummary : jsstring;
  keyConcepts : list KeyConcept;
  chapterBreakdown : list Chapter.t;
  topicStats : list TopicStat;
  fullMarkdownReport : jsstring
}.

Definition as_string (v : option json) : option jsstring :=
  match v with Some (JString s) => Some s | _ => None end.

Definition as_number (v : option json) : option Q :=
  match v with Some (JNumber q) => Some q | _ => None end.

Fixpoint traverse {A B} (f : A -> option B) (l : list A) : option (list B) :=
  match l with
  | [] => Some []
  | a :: r =>
      match f a, traverse f r with
      | Some b, Some bs => Some (b :: bs)
      | _, _ => None
      end
  end.

Definition as_array {B} (f : json -> option B) (v : option json)
  : option (list B) :=
  match v with Some (JArray items) => traverse f items | _ => None end.

Definition as_Metadata (v : option json) : option Metadata :=
  match v with
  | Some (JObject ms) =>
      match as_string (lookup (lit "title") ms),
            as_string (lookup (lit "author") ms),
            as_string (lookup (lit "genre") ms),
            as_string (lookup (lit "readingTime") ms) with
      | Some t, Some a, Some g, Some r =>
          Some {| title := t; author := a; genre := g; readingTime := r |}
      | _, _, _, _ => None
      end
  | _ => None
  end.

Definition as_KeyConcept (v : json) : option KeyConcept :=
  match as_string (get v (lit "term")),
        as_string (get v (lit "definition")),
        as_number (get v (lit "importance")) with
  | Some t, Some d, Some i =>
      Some {| term := t; definition := d; importance := i |}
  | _, _, _ => None
  end.

Definition as_Chapter (v : json) : option Chapter.t :=
  match as_string (get v (lit "title")),
        as_string (get v (lit "summary")),
        as_string (get v (lit "insight")) with
  | Some t, Some s, Some i =>
      Some {| Chapter.title := t; Chapter.summary := s; Chapter.insight := i |}
  | _, _, _ => None
  end.

Definition as_TopicStat (v : json) : option TopicStat :=
  match as_string (get v (lit "topic")),
        as_number (get v (lit "relevance")) with
  | Some t, Some r => Some {| topic := t; relevance := r |}
  | _, _ => None
  end.

(** A parsed value read at the declared type: defined exactly when every
    declared field is there with its declared type. The source performs
    no such check ([as AnalysisData] is erased at run time); this is what
    the typed code below assumes of [data]. *)
Definition as_AnalysisData (v : json) : option AnalysisData :=
  match as_Metadata (get v (lit "metadata")),
        as_string (get v (lit "executiveSummary")),
        as_array as_KeyConcept (get v (lit "keyConcepts")),
        as_array as_Chapter (get v (lit "chapterBreakdown")),
        as_array as_TopicStat (get v (lit "topicStats")),
        as_string (get v (lit "fullMarkdownReport")) with
  | Some m, Some e, Some k, Some c, Some t, Some r =>
      Some {| metadata := m; executiveSummary := e; keyConcepts := k;
              chapterBreakdown := c; topicStats := t;
              fullMarkdownReport := r |}
  | _, _, _, _, _, _ => None
  end.

(** The required properties of a schema object (line 308 for the top
    level). *)
Definition required_fields (s : Schema) : list jsstring :=
  match s with
  | SObject _ required => required
  | _ => []
  end.

(** A required top-level property is absent from the value. *)
Definition missing_required (v : json) : Prop :=
  exists k, In k (required_fields analysisSchema) /\ get v k = None.

(* ------------------------------------------------------------------ *)
(** ** The views (lines 164-218 and 456-520)                           *)
(* ------------------------------------------------------------------ *)

(** One bar: its label, the number printed beside it, and the width of
    the filled part in percent of the track. *)
Record Bar := {
  label : jsstring;
  shown : Q;
  widthPercent : Q
}.

(** [Math.max(...values, 1)]. *)
Definition max_or_1 (values : list Q) : Q := fold_right Qmax 1%Q values.

(** [BarChart] (lines 164-184). *)
Definition BarChart (items : list (jsstring * Q)) : list Bar :=
  let max := max_or_1 (map snd items) in
  map (fun item => {| label := fst item;
                      shown := snd item;
                      widthPercent := ((snd item / max) * 100)%Q |}) items.

(** The "Top Themes" panel (line 490). *)
Definition topThemes (d : AnalysisData) : list Bar :=
  BarChart (map (fun t => (topic t, relevance t)) (topicStats d)).

(** The "Concept Impact Distribution" panel (lines 498-511). *)
Definition conceptImpact (d : AnalysisData) : list Bar :=
  map (fun c => {| label := term c;
                   shown := importance c;
                   widthPercent := importance c |})
      (firstn 5 (keyConcepts d)).

(** [ConceptCard] (lines 187-199): the badge is highlighted above 80. *)
Record Card := {
  cardTerm : jsstring;
  cardImpact : Q;
  cardHighlighted : bool;
  cardDefinition : jsstring
}.

Definition ConceptCard (concept : KeyConcept) : Card :=
  {| cardTerm := term concept;
     cardImpact := importance concept;
     cardHighlighted := negb (Qle_bool (importance concept) 80);
     cardDefinition := definition concept |}.

(** The concepts tab (lines 472-481). *)
Definition coreConcepts (d : AnalysisData) : list Card :=
  map ConceptCard (keyConcepts d).

(** [FullReport] (lines 214-218). *)
Definition FullReport (markdown : jsstring) : jsstring := markdown.

(** The share of the track a bar fills. *)
Definition proportion (b : Bar) : Q := (widthPercent b / 100)%Q.

(** [m] is the largest value of a series. *)
Definition is_max (m : Q) (values : list Q) : Prop :=
  In m values /\ forall v, In v values -> (v <= m)%Q.

(* ------------------------------------------------------------------ *)
(** ** The vocabulary of the design document                           *)
(* ------------------------------------------------------------------ *)

(** The workflow state of section 3, read off the state cells. *)
Inductive WorkflowState :=
| Idle (lastError : option jsstring)
| Processing
| Ready (result : json).

Definition workflow (s : AppState) : WorkflowState :=
  match view s with
  | upload => Idle (error s)
  | processing => Processing
  | dashboard => Ready (data s)
  end.

Inductive Reason := UnsupportedFormat.

Inductive Verdict :=
| Accepted
| Rejected (reason : Reason).

(** The acceptance rule in the words of section 4.1: ordered, first match wins. *)
Definition validate (candidate : File) : Verdict :=
  if endsWith (name candidate) (lit ".md")
     || endsWith (name candidate) (lit ".markdown") then Accepted
  else if str_eqb (type candidate) (lit "application/pdf")
          || endsWith (name candidate) (lit ".pdf") then Accepted
  else if includes [lit "text/markdown"; lit "text/plain"; lit "application/pdf"]
                   (type candidate) then Accepted
  else Rejected UnsupportedFormat.

(** The tags of section 3's closed set: PDF and plain text. *)
Definition closed_set : list jsstring :=
  [lit "application/pdf"; lit "text/plain"].

(** The maximal runs of a string with respect to a class of units: each
    run is tagged with whether its units are in the class. *)
Fixpoint runs (p : N -> bool) (s : jsstring) : list (bool * jsstring) :=
  match s with
  | [] => []
  | c :: r =>
      match runs p r with
      | (b, run) :: rest =>
          if Bool.eqb (p c) b then (b, c :: run) :: rest
          else (p c, [c]) :: (b, run) :: rest
      | [] => [(p c, [c])]
      end
  end.

(** The file-name slug in the words of the claim: every maximal run of
    white space becomes one underscore, everything else stays. *)
Definition underscore_runs (s : jsstring) : jsstring :=
  concat (map (fun tr : bool * jsstring =>
                 if fst tr then [underscore] else snd tr)
              (runs isWhiteSpace s)).

(* ------------------------------------------------------------------ *)
(** ** The drop zone's highlight and the overview tab                  *)
(* ------------------------------------------------------------------ *)

(** [handleDrag] (lines 54-62): the value of [isDragging] after a drag
    event of the given type. *)
Definition handleDrag (eventType : jsstring) (isDragging : bool) : bool :=
  if str_eqb eventType (lit "dragenter") || str_eqb eventType (lit "dragover")
  then true
  else if str_eqb eventType (lit "dragleave") then false
  else isDragging.

(** What reaches the drop zone: a drag event with its type, or a drop
    (line 67 of [handleDrop] clears the highlight). *)
Inductive ZoneEvent :=
| Drag (eventType : jsstring)
| Drop.

Definition zoneStep (isDragging : bool) (e : ZoneEvent) : bool :=
  match e with
  | Drag eventType => handleDrag eventType isDragging
  | Drop => false
  end.

(** The highlight after a sequence of events, oldest first. *)
Definition zoneAfter (isDragging : bool) (es : list ZoneEvent) : bool :=
  fold_left zoneStep es isDragging.

(** [ChapterRow] (lines 201-212): the section number is the index plus
    one. *)
Record Row := {
  rowNumber : nat;
  rowTitle : jsstring;
  rowSummary : jsstring;
  rowInsight : jsstring
}.

Definition ChapterRow (chapter : Chapter.t) (index : nat) : Row :=
  {| rowNumber := index + 1;
     rowTitle := Chapter.title chapter;
     rowSummary := Chapter.summary chapter;
     rowInsight := Chapter.insight chapter |}.

(** [xs.map((x, idx) => f x idx)]. *)
Fixpoint mapi_from {A B} (start : nat) (f : A -> nat -> B) (xs : list A)
  : list B :=
  match xs with
  | [] => []
  | x :: r => f x start :: mapi_from (S start) f r
  end.

(** The overview tab (lines 458-470). *)
Definition structuralBreakdown (d : AnalysisData) : list Row :=
  mapi_from 0 ChapterRow (chapterBreakdown d).

(** What a zone event makes of the highlight when it decides it alone:
    a drop and [dragleave] clear it, [dragenter] and [dragover] set it,
    any other drag event has no say. *)
Definition decides (e : ZoneEvent) : option bool :=
  match e with
  | Drop => Some false
  | Drag eventType =>
      if str_eqb eventType (lit "dragenter") || str_eqb eventType (lit "dragover")
      then Some true
      else if str_eqb eventType (lit "dragleave") then Some false
      else None
  end.

(** No unit of the string is white space. *)
Definition no_whitespace (s : jsstring) : bool :=
  forallb (fun c => negb (isWhiteSpace c)) s.

(** A Markdown file with the long extension and no declared type. *)
Definition notes_markdown : File :=
  {| name := lit "notes.markdown"; type := []; content := [x23; x20; x48; x69] |}.

(** A string literal of a JSON text: the characters between quotes. *)
Definition quoted (s : string) : jsstring := 34 :: lit s ++ [34].

(** A well-formed answer of the service, as text. *)
Definition sample_text : jsstring :=
  lit "{" ++ quoted "metadata" ++ lit ": {"
  ++ quoted "title" ++ lit ":" ++ quoted "On  Liberty" ++ lit ","
  ++ quoted "author" ++ lit ":" ++ quoted "Mill" ++ lit ","
  ++ quoted "genre" ++ lit ":" ++ quoted "Essay" ++ lit ","
  ++ quoted "readingTime" ++ lit ":" ++ quoted "3h" ++ lit "},"
  ++ quoted "executiveSummary" ++ lit ":" ++ quoted "S" ++ lit ","
  ++ quoted "keyConcepts" ++ lit ":[],"
  ++ quoted "chapterBreakdown" ++ lit ":[],"
  ++ quoted "topicStats" ++ lit ":[],"
  ++ quoted "fullMarkdownReport" ++ lit ":" ++ quoted "# Notes" ++ lit "}".

(** What [JSON.parse] makes of [sample_text]. *)
Definition sample_parsed : json :=
  JObject
    [ (lit "metadata",
       JObject [ (lit "title", JString (lit "On  Liberty"));
                 (lit "author", JString (lit "Mill"));
                 (lit "genre", JString (lit "Essay"));
                 (lit "readingTime", JString (lit "3h")) ]);
      (lit "executiveSummary", JString (lit "S"));
      (lit "keyConcepts", JArray []);
      (lit "chapterBreakdown", JArray []);
      (lit "topicStats", JArray []);
      (lit "fullMarkdownReport", JString (lit "# Notes")) ].

(** A platform whose reader fails. *)
Definition unreadable : Platform :=
  {| newGoogleGenAI := None;
     readFails := fun _ => true;
     generateContent := fun _ => inr None;
     syntaxErrorMessage := lit "Unexpected end of JSON input";
     typeErrorMessage := lit "Cannot read properties of undefined" |}.

(** A platform whose SDK constructor throws. *)
Definition keyless : Platform :=
  {| newGoogleGenAI := Some (Error (lit "An API Key must be set"));
     readFails := fun _ => false;
     generateContent := fun _ => inr None;
     syntaxErrorMessage := lit "Unexpected end of JSON input";
     typeErrorMessage := lit "Cannot read properties of undefined" |}.

(** A platform whose service rejects every request with [e]. *)
Definition rejecting (e : exn) : Platform :=
  {| newGoogleGenAI := None;
     readFails := fun _ => false;
     generateContent := fun _ => inl e;
     syntaxErrorMessage := lit "Unexpected end of JSON input";
     typeErrorMessage := lit "Cannot read properties of undefined" |}.

(** The dashboard holding a result with no [metadata]. *)
Definition bare_ready : AppState :=
  {| view := dashboard; activeTab := overview; data := JObject [];
     error := None |}.

(* ------------------------------------------------------------------ *)
(** ** Auxiliary notions used in the statements                        *)
(* ------------------------------------------------------------------ *)

(** The payload of a submission as the source computes it. *)
Definition payload (f : File) : option jsstring :=
  nth_error (split comma (dataURL f)) 1.

(** The state a failed submission leaves: back on the upload view with
    the message, everything else as before. *)
Definition failed (s : AppState) (msg : jsstring) : AppState :=
  {| view := upload; activeTab := activeTab s; data := data s;
     error := Some msg |}.

(** The state a successful submission leaves. *)
Definition succeeded (s : AppState) (v : json) : AppState :=
  {| view := dashboard; activeTab := activeTab s; data := v; error := None |}.

Definition fallback_message : jsstring := lit "Failed to process file.".

(** Neighbouring runs are of different kinds. *)
Fixpoint alternating (l : list (bool * jsstring)) : Prop :=
  match l with
  | a :: (b :: _) as rest => fst a <> fst b /\ alternating rest
  | _ => True
  end.

(** The blob the export builds from the stored result. *)
Definition export_blob (d : json) : Blob :=
  {| blobParts := [get d (lit "fullMarkdownReport")];
     blobType := lit "text/markdown" |}.

(** The title the export reads: [data.metadata.title] when it is a
    string. *)
Definition title_of (d : json) : option jsstring :=
  match get d (lit "metadata") with
  | Some md => match get md (lit "title") with
               | Some (JString t) => Some t
               | _ => None
               end
  | None => None
  end.

(** The effects a submission can have: setter calls, the console, the
    request. *)
Definition pipeline_effect (e : Effect) : bool :=
  match e with
  | SetView _ | SetData _ | SetError _ | ConsoleError _
  | CallGenerateContent _ => true
  | _ => false
  end.

(** Everything an event can do, case by case: the same information as
    [dispatch], in the form of an inversion principle. *)
Inductive Fired (p : Platform) (s : AppState)
  : Event -> exn + unit -> World -> Prop :=
| fired_no_file (e : Event) :
    view s = upload ->
    e = DropFiles [] \/ e = ChooseFiles [] ->
    Fired p s e (inr tt) {| app := s; log := [] |}
| fired_rejected (e : Event) (f : File) (rest : list File) :
    view s = upload ->
    e = DropFiles (f :: rest) \/ e = ChooseFiles (f :: rest) ->
    validate f = Rejected UnsupportedFormat ->
    Fired p s e (inr tt) {| app := s; log := [Alert rejection_notice] |}
| fired_submitted (e : Event) (f : File) (rest : list File) :
    view s = upload ->
    e = DropFiles (f :: rest) \/ e = ChooseFiles (f :: rest) ->
    validate f = Accepted ->
    Fired p s e (fst (handleFileSelect p f {| app := s; log := [] |}))
                (snd (handleFileSelect p f {| app := s; log := [] |}))
| fired_logo :
    view s = dashboard -> truthy (data s) = true ->
    Fired p s ClickLogo (inr tt)
          {| app := {| view := upload; activeTab := activeTab s;
                       data := data s; error := error s |};
             log := [SetView upload] |}
| fired_print :
    view s = dashboard -> truthy (data s) = true ->
    Fired p s ClickPrint (inr tt) {| app := s; log := [WindowPrint] |}
| fired_export :
    view s = dashboard -> truthy (data s) = true ->
    Fired p s ClickExport (fst (handleDownload p {| app := s; log := [] |}))
                          (snd (handleDownload p {| app := s; log := [] |}))
| fired_tab (t : DashboardTab) :
    view s = dashboard -> truthy (data s) = true ->
    Fired p s (ClickTab t) (inr tt)
          {| app := {| view := dashboard; activeTab := t;
                       data := data s; error := error s |};
             log := [SetActiveTab t] |}.

(* ------------------------------------------------------------------ *)
(** ** Sample inputs                                                   *)
(* ------------------------------------------------------------------ *)

(** A Markdown file for which the browser declares no media type. *)
Definition notes_md : File :=
  {| name := lit "notes.md"; type := []; content := [x23; x20; x48; x69] |}.

(** A Markdown file with a media type some systems register for it. *)
Definition notes_x_md : File :=
  {| name := lit "notes.md"; type := lit "text/x-markdown";
     content := [x23; x20; x48; x69] |}.

(** A text file with no declared media type. *)
Definition notes_txt : File :=
  {| name := lit "notes.txt"; type := []; content := [x48; x69] |}.

Definition paper_pdf : File :=
  {| name := lit "paper.pdf"; type := lit "application/pdf";
     content := [x25; x50; x44; x46] |}.

(** A platform on which the constructor and the read succeed and the
    service answers every request with [text]. *)
Definition answering (text : option jsstring) : Platform :=
  {| newGoogleGenAI := None;
     readFails := fun _ => false;
     generateContent := fun _ => inr text;
     syntaxErrorMessage := lit "Unexpected end of JSON input";
     typeErrorMessage := lit "Cannot read properties of undefined" |}.

(** A well-formed answer of the service, as parsed, and the same value
    at the declared type. *)
Definition sample_result : json :=
  JObject
    [ (lit "metadata",
       JObject [ (lit "title", JString (lit "My Book: Part One"));
                 (lit "author", JString (lit "A. Writer"));
                 (lit "genre", JString (lit "Essay"));
                 (lit "readingTime", JString (lit "5 min")) ]);
      (lit "executiveSummary", JString (lit "A short summary."));
      (lit "keyConcepts",
       JArray [ JObject [ (lit "term", JString (lit "Entropy"));
                          (lit "definition", JString (lit "Disorder."));
                          (lit "importance", JNumber 50) ] ]);
      (lit "chapterBreakdown",
       JArray [ JObject [ (lit "title", JString (lit "One"));
                          (lit "summary", JString (lit "Opening."));
                          (lit "insight", JString (lit "Start small.")) ] ]);
      (lit "topicStats",
       JArray [ JObject [ (lit "topic", JString (lit "Physics"));
                          (lit "relevance", JNumber 40) ];
                JObject [ (lit "topic", JString (lit "History"));
                          (lit "relevance", JNumber 80) ] ]);
      (lit "fullMarkdownReport", JString (lit "# My Book")) ].

Definition sample_data : AnalysisData :=
  {| metadata := {| title := lit "My Book: Part One";
                    author := lit "A. Writer";
                    genre := lit "Essay";
                    readingTime := lit "5 min" |};
     executiveSummary := lit "A short summary.";
     keyConcepts := [ {| term := lit "Entropy";
                         definition := lit "Disorder.";
                         importance := 50 |} ];
     chapterBreakdown := [ {| Chapter.title := lit "One";
                              Chapter.summary := lit "Opening.";
                              Chapter.insight := lit "Start small." |} ];
     topicStats := [ {| topic := lit "Physics"; relevance := 40 |};
                     {| topic := lit "History"; relevance := 80 |} ];
     fullMarkdownReport := lit "# My Book" |}.

(** The dashboard showing [sample_result]. *)
Definition sample_ready : AppState :=
  {| view := dashboard; activeTab := overview; data := sample_result;
     error := None |}.

(** The same after a click on the logo: the result stays in its cell. *)
Definition sample_reset : AppState :=
  {| view := upload; activeTab := overview; data := sample_result;
     error := None |}.

(** A submission in flight. *)
Definition sample_processing : AppState :=
  {| view := processing; activeTab := overview; data := JNull; error := None |}.

(* ================================================================== *)
(** * Part II. Properties                                              *)
(* ================================================================== *)

(* ------------------------------------------------------------------ *)
(** ** Strings                                                         *)
(* ------------------------------------------------------------------ *)

Lemma str_eqb_eq (s t : jsstring) : str_eqb s t = true <-> s = t.
Proof.
  revert t; induction s as [|c s IH]; intros [|d t]; simpl;
    try (split; [discriminate | congruence]); [tauto|].
  rewrite andb_true_iff, N.eqb_eq, IH.
  split; [intros [-> ->]; reflexivity | intros [= -> ->]; auto].
Qed.

Lemma str_eqb_refl (s : jsstring) : str_eqb s s = true.
Proof. apply str_eqb_eq; reflexivity. Qed.

Lemma endsWith_app (stem x : jsstring) : endsWith (stem ++ x) x = true.
Proof.
  unfold endsWith. rewrite length_app.
  replace (length stem + length x - length x)%nat with (length stem) by lia.
  rewrite skipn_app, skipn_all, Nat.sub_diag. simpl.
  rewrite str_eqb_refl, andb_true_r. apply Nat.leb_le. lia.
Qed.

Lemma endsWith_spec (s x : jsstring) :
  endsWith s x = true <-> exists stem, s = stem ++ x.
Proof.
  split.
  - unfold endsWith. rewrite andb_true_iff, str_eqb_eq. intros [_ H].
    exists (firstn (length s - length x) s).
    pose proof (firstn_skipn (length s - length x) s) as E.
    rewrite H in E. symmetry. exact E.
  - intros [stem ->]. apply endsWith_app.
Qed.

Lemma includes_spec (xs : list jsstring) (x : jsstring) :
  includes xs x = true <-> In x xs.
Proof.
  unfold includes. rewrite existsb_exists. split.
  - intros [y [Hy E]]. apply str_eqb_eq in E. subst. assumption.
  - intros H. exists x. split; [assumption | apply str_eqb_refl].
Qed.

(* ------------------------------------------------------------------ *)
(** ** The platform functions on known values                          *)
(* ------------------------------------------------------------------ *)

(** The test vectors of RFC 4648, section 10. *)
Example base64_vectors :
  base64_encode [] = lit "" /\
  base64_encode [x66] = lit "Zg==" /\
  base64_encode [x66; x6f] = lit "Zm8=" /\
  base64_encode [x66; x6f; x6f] = lit "Zm9v" /\
  base64_encode [x66; x6f; x6f; x62; x61; x72] = lit "Zm9vYmFy" /\
  base64_decode (lit "Zm9vYg==") = Some [x66; x6f; x6f; x62] /\
  base64_decode (lit "Zm9vY") = None.
Proof. repeat split. Qed.

Example dataURL_sample :
  dataURL paper_pdf = lit "data:application/pdf;base64,JVBERg==" /\
  dataURL notes_md = lit "data:application/octet-stream;base64,IyBIaQ==".
Proof. split; reflexivity. Qed.

Example JSON_parse_samples :
  JSON_parse (lit " [1, 2.50, -3e2, 1E-1, true, false, null, {}, []] ")
    = Some (JArray [JNumber 1; JNumber (5 # 2); JNumber (-300);
                    JNumber (1 # 10); JBool true; JBool false; JNull;
                    JObject []; JArray []]) /\
  JSON_parse (lit "{" ++ [34] ++ lit "aA" ++ [34] ++ lit ": "
              ++ [34] ++ lit "x\ny" ++ [34] ++ lit "}")
    = Some (JObject [(lit "aA", JString [120; 10; 121])]) /\
  JSON_parse (lit "[1,]") = None /\
  JSON_parse (lit "01") = None /\
  JSON_parse (lit "{} x") = None /\
  JSON_parse (lit "nul") = None.
Proof. repeat split. Qed.

Example validate_samples :
  validate notes_md = Accepted /\
  validate paper_pdf = Accepted /\
  validate notes_txt = Rejected UnsupportedFormat /\
  validate {| name := lit "README.MD"; type := []; content := [] |}
    = Rejected UnsupportedFormat /\
  validate {| name := lit "notes.txt"; type := lit "text/plain";
              content := [] |} = Accepted.
Proof. repeat split. Qed.

(* ------------------------------------------------------------------ *)
(** ** The JSON parser never runs out of fuel                          *)
(* ------------------------------------------------------------------ *)

Lemma skip_ws_length (s : jsstring) : (length (skip_ws s) <= length s)%nat.
Proof.
  induction s as [|c r IH]; simpl; [lia|].
  destruct (isJsonWs c); simpl; lia.
Qed.

Lemma parse_string_length (s body rest : jsstring) :
  parse_string s = Some (body, rest) -> (length rest < length s)%nat.
Proof.
  remember (length s) as n eqn:Hn.
  assert (Hle : (length s <= n)%nat) by lia. clear Hn.
  revert s Hle body rest.
  induction n as [|n IH]; intros s Hle body rest H;
    (destruct s as [|c r]; [discriminate|]); simpl in Hle; [lia|].
  simpl in H.
  destruct (c =? 34); [injection H as <- <-; simpl; lia|].
  destruct (c =? 92).
  - destruct r as [|e r1]; [discriminate|].
    destruct (e =? 117).
    + destruct r1 as [|h1 [|h2 [|h3 [|h4 r2]]]]; try discriminate.
      destruct (hex4 h1 h2 h3 h4); [|discriminate].
      destruct (parse_string r2) as [[b r']|] eqn:E; [|discriminate].
      injection H as <- <-. apply IH in E; simpl in *; lia.
    + destruct (unescape e); [|discriminate].
      destruct (parse_string r1) as [[b r']|] eqn:E; [|discriminate].
      injection H as <- <-. apply IH in E; simpl in *; lia.
  - destruct (c <? 32); [discriminate|].
    destruct (parse_string r) as [[b r']|] eqn:E; [|discriminate].
    injection H as <- <-. apply IH in E; simpl in *; lia.
Qed.

Lemma strip_prefix_length (w s rest : jsstring) :
  strip_prefix w s = Some rest -> (length rest <= length s)%nat.
Proof.
  revert s. induction w as [|a w IH]; intros s H; simpl in H.
  - injection H as <-. lia.
  - destruct s as [|b s]; [discriminate|].
    destruct (a =? b); [|discriminate]. apply IH in H. simpl. lia.
Qed.

Lemma parse_int_length (s ip rest : jsstring) :
  parse_int s = Some (ip, rest) -> (length rest < length s)%nat.
Proof.
  unfold parse_int. destruct s as [|d r]; [discriminate|].
  destruct (d =? 48); [intros [= <- <-]; simpl; lia|].
  destruct (isDigit d) eqn:Hd; [|discriminate].
  cbn [span]. rewrite Hd.
  pose proof (span_length isDigit r).
  destruct (span isDigit r). intros [= <- <-]. simpl in *. lia.
Qed.

Lemma parse_frac_length (s fd rest : jsstring) :
  parse_frac s = Some (fd, rest) -> (length rest <= length s)%nat.
Proof.
  unfold parse_frac. destruct s as [|c r]; [intros [= <- <-]; lia|].
  destruct (c =? 46); [|intros [= <- <-]; lia].
  pose proof (span_length isDigit r).
  destruct (span isDigit r) as [[|d ds] rest']; [discriminate|].
  intros [= <- <-]. simpl in *. lia.
Qed.

Lemma exp_digits_length (neg : bool) (s : jsstring) (e : Z) (rest : jsstring) :
  exp_digits neg s = Some (e, rest) -> (length rest <= length s)%nat.
Proof.
  unfold exp_digits. pose proof (span_length isDigit s).
  destruct (span isDigit s) as [[|d ds] rest']; [discriminate|].
  intros [= _ <-]. simpl in *. lia.
Qed.

Lemma parse_exp_length (s : jsstring) (e : Z) (rest : jsstring) :
  parse_exp s = Some (e, rest) -> (length rest <= length s)%nat.
Proof.
  unfold parse_exp. destruct s as [|c r]; [intros [= <- <-]; lia|].
  destruct ((c =? 101) || (c =? 69)); [|intros [= <- <-]; lia].
  destruct r as [|g r'].
  - intros H. apply exp_digits_length in H. simpl in *. lia.
  - destruct (g =? 45); [|destruct (g =? 43)];
      intros H; apply exp_digits_length in H; simpl in *; lia.
Qed.

Lemma unsigned_number_length (neg : bool) (s : jsstring) (q : Q)
  (rest : jsstring) :
  unsigned_number neg s = Some (q, rest) -> (length rest < length s)%nat.
Proof.
  unfold unsigned_number. intros H.
  destruct (parse_int s) as [[ip s2]|] eqn:E1; [|discriminate].
  destruct (parse_frac s2) as [[fd s3]|] eqn:E2; [|discriminate].
  destruct (parse_exp s3) as [[e s4]|] eqn:E3; [|discriminate].
  injection H as _ <-.
  apply parse_int_length in E1. apply parse_frac_length in E2.
  apply parse_exp_length in E3. lia.
Qed.

Lemma parse_number_length (s : jsstring) (q : Q) (rest : jsstring) :
  parse_number s = Some (q, rest) -> (length rest < length s)%nat.
Proof.
  unfold parse_number. destruct s as [|c r]; [discriminate|].
  destruct (c =? 45); intros H; apply unsigned_number_length in H;
    simpl in *; lia.
Qed.

(** Every successful parse consumes input. *)
Ltac unfold_parser H :=
  cbn -[lit strip_prefix parse_string parse_number skip_ws N.eqb option_map] in H.

Lemma parse_consumes (n : nat) :
  (forall s v rest, parse_value n s = Some (v, rest) ->
                    (length rest < length s)%nat) /\
  (forall s acc vs rest, parse_elements n s acc = Some (vs, rest) ->
                         (length rest < length s)%nat) /\
  (forall s acc ms rest, parse_members n s acc = Some (ms, rest) ->
                         (length rest < length s)%nat).
Proof.
  induction n as [|n (IHv & IHe & IHm)].
  - repeat split; intros; discriminate.
  - split; [|split].
    + intros s v rest H. unfold_parser H.
      pose proof (skip_ws_length s) as Hs.
      destruct (skip_ws s) as [|c r]; [discriminate|]. simpl in Hs.
      destruct (c =? 123).
      { pose proof (skip_ws_length r) as Hr.
        destruct (skip_ws r) as [|d r']; [discriminate|]. simpl in Hr.
        destruct (d =? 125); [injection H as _ <-; lia|].
        destruct (parse_members n r []) as [[ms rest']|] eqn:E; simpl in H; [|discriminate H].
        injection H as _ <-. apply IHm in E. lia. }
      destruct (c =? 91).
      { pose proof (skip_ws_length r) as Hr.
        destruct (skip_ws r) as [|d r']; [discriminate|]. simpl in Hr.
        destruct (d =? 93); [injection H as _ <-; lia|].
        destruct (parse_elements n r []) as [[vs rest']|] eqn:E; simpl in H; [|discriminate H].
        injection H as _ <-. apply IHe in E. lia. }
      destruct (c =? 34).
      { destruct (parse_string r) as [[str rest']|] eqn:E; simpl in H; [|discriminate H].
        injection H as _ <-. apply parse_string_length in E. lia. }
      destruct (c =? 116).
      { destruct (strip_prefix (lit "rue") r) as [rest'|] eqn:E; simpl in H; [|discriminate H].
        injection H as _ <-. apply strip_prefix_length in E. lia. }
      destruct (c =? 102).
      { destruct (strip_prefix (lit "alse") r) as [rest'|] eqn:E; simpl in H; [|discriminate H].
        injection H as _ <-. apply strip_prefix_length in E. lia. }
      destruct (c =? 110).
      { destruct (strip_prefix (lit "ull") r) as [rest'|] eqn:E; simpl in H; [|discriminate H].
        injection H as _ <-. apply strip_prefix_length in E. lia. }
      destruct (parse_number (c :: r)) as [[q rest']|] eqn:E; simpl in H; [|discriminate H].
      injection H as _ <-. apply parse_number_length in E. simpl in E. lia.
    + intros s acc vs rest H. unfold_parser H.
      destruct (parse_value n s) as [[v r]|] eqn:E; simpl in H; [|discriminate H].
      apply IHv in E.
      pose proof (skip_ws_length r) as Hr.
      destruct (skip_ws r) as [|d r']; [discriminate|]. simpl in Hr.
      destruct (d =? 44); [apply IHe in H; lia|].
      destruct (d =? 93); [|discriminate]. injection H as _ <-. lia.
    + intros s acc ms rest H. unfold_parser H.
      pose proof (skip_ws_length s) as Hs.
      destruct (skip_ws s) as [|q r0]; [discriminate|]. simpl in Hs.
      destruct (q =? 34); [|discriminate].
      destruct (parse_string r0) as [[k r1]|] eqn:Ek; [|discriminate].
      apply parse_string_length in Ek.
      pose proof (skip_ws_length r1) as Hr1.
      destruct (skip_ws r1) as [|col r2]; [discriminate|]. simpl in Hr1.
      destruct (col =? 58); [|discriminate].
      destruct (parse_value n r2) as [[v r3]|] eqn:Ev; [|discriminate].
      apply IHv in Ev.
      pose proof (skip_ws_length r3) as Hr3.
      destruct (skip_ws r3) as [|d r4]; [discriminate|]. simpl in Hr3.
      destruct (d =? 44); [apply IHm in H; lia|].
      destruct (d =? 125); [|discriminate]. injection H as _ <-. lia.
Qed.

Ltac unfold_parser_goal :=
  cbn -[lit strip_prefix parse_string parse_number skip_ws N.eqb option_map
        Nat.mul Nat.add].

(** A parse that succeeds with some fuel succeeds, with the same result,
    with any fuel of at least twice the length of the text (one more for
    the loops over elements and members). *)
Lemma parse_fuel_enough (n : nat) :
  (forall s x, parse_value n s = Some x ->
     forall m, (2 * length s <= m)%nat -> parse_value m s = Some x) /\
  (forall s acc x, parse_elements n s acc = Some x ->
     forall m, (2 * length s + 1 <= m)%nat -> parse_elements m s acc = Some x) /\
  (forall s acc x, parse_members n s acc = Some x ->
     forall m, (2 * length s + 1 <= m)%nat -> parse_members m s acc = Some x).
Proof.
  induction n as [|n (IHv & IHe & IHm)].
  - repeat split; intros; discriminate.
  - destruct (parse_consumes n) as (Cv & Ce & Cm).
    split; [|split].
    + intros s x H m Hm. unfold_parser H.
      pose proof (skip_ws_length s) as Hs.
      destruct m as [|m].
      { destruct (skip_ws s); [discriminate|]. simpl in Hs. lia. }
      unfold_parser_goal.
      destruct (skip_ws s) as [|c r]; [discriminate|]. simpl in Hs.
      destruct (c =? 123).
      { pose proof (skip_ws_length r) as Hr.
        destruct (skip_ws r) as [|d r']; [discriminate|]. simpl in Hr.
        destruct (d =? 125); [assumption|].
        destruct (parse_members n r []) as [y|] eqn:E; [|discriminate H].
        rewrite (IHm _ _ _ E m) by lia. assumption. }
      destruct (c =? 91).
      { pose proof (skip_ws_length r) as Hr.
        destruct (skip_ws r) as [|d r']; [discriminate|]. simpl in Hr.
        destruct (d =? 93); [assumption|].
        destruct (parse_elements n r []) as [y|] eqn:E; [|discriminate H].
        rewrite (IHe _ _ _ E m) by lia. assumption. }
      assumption.
    + intros s acc x H m Hm. unfold_parser H.
      destruct m as [|m]; [lia|]. unfold_parser_goal.
      destruct (parse_value n s) as [[v r]|] eqn:E; [|discriminate].
      rewrite (IHv _ _ E m) by lia. apply Cv in E.
      pose proof (skip_ws_length r) as Hr.
      destruct (skip_ws r) as [|d r']; [discriminate|]. simpl in Hr.
      destruct (d =? 44); [apply (IHe _ _ _ H); lia|]. assumption.
    + intros s acc x H m Hm. unfold_parser H.
      destruct m as [|m]; [lia|]. unfold_parser_goal.
      pose proof (skip_ws_length s) as Hs.
      destruct (skip_ws s) as [|q r0]; [discriminate|]. simpl in Hs.
      destruct (q =? 34); [|discriminate].
      destruct (parse_string r0) as [[k r1]|] eqn:Ek; [|discriminate].
      apply parse_string_length in Ek.
      pose proof (skip_ws_length r1) as Hr1.
      destruct (skip_ws r1) as [|col r2]; [discriminate|]. simpl in Hr1.
      destruct (col =? 58); [|discriminate].
      destruct (parse_value n r2) as [[v r3]|] eqn:Ev; [|discriminate].
      rewrite (IHv _ _ Ev m) by lia. apply Cv in Ev.
      pose proof (skip_ws_length r3) as Hr3.
      destruct (skip_ws r3) as [|d r4]; [discriminate|]. simpl in Hr3.
      destruct (d =? 44); [apply (IHm _ _ _ H); lia|]. assumption.
Qed.

(** [JSON_parse] rejects a text only if no amount of fuel would parse
    it: the fuel it supplies is never what makes a parse fail. *)
Lemma JSON_parse_complete (n : nat) (text : jsstring) (v : json)
  (rest : jsstring) :
  parse_value n text = Some (v, rest) ->
  skip_ws rest = [] ->
  JSON_parse text = Some v.
Proof.
  intros H Hrest. unfold JSON_parse.
  rewrite (proj1 (parse_fuel_enough n) _ _ H) by lia.
  rewrite Hrest. reflexivity.
Qed.

(* ------------------------------------------------------------------ *)
(** ** File validation                                                 *)
(* ------------------------------------------------------------------ *)

(** The source's disjunction and the ordered rule of section 4.1 decide alike:
    the file is handed on exactly when the rule accepts it, and the alert
    is raised exactly when the rule rejects it. *)
Lemma validateAndProcess_validate (k : File -> M unit) (f : File) :
  validateAndProcess k f =
  match validate f with
  | Accepted => k f
  | Rejected UnsupportedFormat => emit (Alert rejection_notice)
  end.
Proof.
  unfold validateAndProcess, validate, isMd, isPdf, validTypes.
  destruct (endsWith (name f) (lit ".md") || endsWith (name f) (lit ".markdown"));
    [reflexivity|].
  destruct (str_eqb (type f) (lit "application/pdf") || endsWith (name f) (lit ".pdf"));
    [reflexivity|].
  cbn [orb].
  destruct (includes _ (type f)); reflexivity.
Qed.

Lemma markdown_name_isMd (f : File) (stem : jsstring) :
  name f = stem ++ lit ".md" \/ name f = stem ++ lit ".markdown" ->
  isMd f = true.
Proof.
  unfold isMd. intros [H | H]; rewrite H, endsWith_app;
    [reflexivity | apply orb_true_r].
Qed.

(** C3. A file whose name ends in [.md] or [.markdown] is accepted
    whatever media type is declared for it, the empty one included; and
    for every file the source decides as the ordered rule does: Markdown
    extension first, then PDF media type or [.pdf] extension, then the
    allow-list, and otherwise rejection as an unsupported format. *)
Theorem markdown_accepted_and_rule_order :
  (forall (f : File) (stem : jsstring),
      name f = stem ++ lit ".md" \/ name f = stem ++ lit ".markdown" ->
      validate f = Accepted /\
      forall k, validateAndProcess k f = k f)
  /\
  (forall (f : File) (k : File -> M unit),
      validateAndProcess k f =
      if isMd f then k f
      else if isPdf f then k f
      else if includes validTypes (type f) then k f
      else emit (Alert rejection_notice))
  /\
  (forall (f : File) (k : File -> M unit),
      validateAndProcess k f =
      match validate f with
      | Accepted => k f
      | Rejected UnsupportedFormat => emit (Alert rejection_notice)
      end).
Proof.
  split; [|split].
  - intros f stem H.
    pose proof (markdown_name_isMd f stem H) as Hmd.
    assert (V : validate f = Accepted).
    { unfold validate. unfold isMd in Hmd. rewrite Hmd. reflexivity. }
    split; [exact V|].
    intros k. rewrite validateAndProcess_validate, V. reflexivity.
  - intros f k. unfold validateAndProcess.
    destruct (isMd f); [reflexivity|].
    destruct (isPdf f); reflexivity.
  - intros f k. apply validateAndProcess_validate.
Qed.

Lemma markdown_accepted_and_rule_order_witness :
  validate notes_md = Accepted /\
  forall k, validateAndProcess k notes_md = k notes_md.
Proof.
  apply (proj1 markdown_accepted_and_rule_order notes_md (lit "notes")).
  left. reflexivity.
Defined.

(* ------------------------------------------------------------------ *)
(** ** The submission pipeline                                         *)
(* ------------------------------------------------------------------ *)

Ltac unfold_handlers :=
  unfold handleFileSelect, bind, try_catch, await, throw, ret, getData,
    setView, setError, setData, setActiveTab, update, emit, readFileBase64;
  cbn [app log view activeTab data error].

(** Every run of [handleFileSelect] returns normally and is one of five
    shapes, told apart by what the platform answers. *)
Lemma handleFileSelect_cases (p : Platform) (f : File) (w : World) :
  let req := request f (payload f) in
  let fail (sent : list Effect) (e : exn) :=
    (inr tt : exn + unit,
     {| app := failed (app w) (message_or e fallback_message);
        log := log w ++ [SetView processing; SetError None] ++ sent
               ++ [ConsoleError e;
                   SetError (Some (message_or e fallback_message));
                   SetView upload] |}) in
  handleFileSelect p f w =
  match newGoogleGenAI p with
  | Some e => fail [] e
  | None =>
      if readFails p f then fail [] ProgressEvent
      else
        match generateContent p req with
        | inl e => fail [CallGenerateContent req] e
        | inr None | inr (Some []) =>
            fail [CallGenerateContent req] (Error (lit "No content generated"))
        | inr (Some text) =>
            match JSON_parse text with
            | None => fail [CallGenerateContent req]
                           (SyntaxError (syntaxErrorMessage p))
            | Some v =>
                (inr tt,
                 {| app := succeeded (app w) v;
                    log := log w ++ [SetView processing; SetError None;
                                     CallGenerateContent req;
                                     SetData v; SetView dashboard] |})
            end
        end
  end.
Proof.
  intros req fail. subst req fail. unfold payload, failed, succeeded.
  unfold_handlers.
  destruct (newGoogleGenAI p) as [e|]; cbn [app log view activeTab data error].
  { repeat rewrite <- app_assoc. reflexivity. }
  destruct (readFails p f); cbn [app log view activeTab data error].
  { repeat rewrite <- app_assoc. reflexivity. }
  destruct (generateContent p _) as [e | [[|c t]|]];
    cbn [app log view activeTab data error];
    try (repeat rewrite <- app_assoc; reflexivity).
  destruct (JSON_parse (c :: t)); cbn [app log view activeTab data error];
    repeat rewrite <- app_assoc; reflexivity.
Qed.

Lemma JSON_parse_empty : JSON_parse [] = None.
Proof. reflexivity. Qed.

(** C8. When the service answers with no content (an empty text, or no
    text at all), the submission fails with the error [No content
    generated]: it is logged, the workflow ends in [Idle] with that message
    as last error, the dashboard view is never requested and the stored
    result is left as it was. *)
Theorem empty_response_returns_to_idle
  (p : Platform) (f : File) (w : World)
  (Hctor : newGoogleGenAI p = None)
  (Hread : readFails p f = false)
  (Hempty : generateContent p (request f (payload f)) = inr None \/
            generateContent p (request f (payload f)) = inr (Some [])) :
  exists l,
    handleFileSelect p f w =
      (inr tt, {| app := failed (app w) (lit "No content generated");
                  log := log w ++ l |}) /\
    workflow (failed (app w) (lit "No content generated"))
      = Idle (Some (lit "No content generated")) /\
    In (ConsoleError (Error (lit "No content generated"))) l /\
    views_set l = [processing; upload].
Proof.
  pose proof (handleFileSelect_cases p f w) as H. cbv zeta in H.
  rewrite Hctor, Hread in H.
  eexists. split; [|split; [reflexivity|split]].
  - destruct Hempty as [E | E]; rewrite E in H; exact H.
  - simpl. auto.
  - reflexivity.
Qed.

Lemma empty_response_returns_to_idle_witness :
  exists l,
    handleFileSelect (answering (Some [])) paper_pdf {| app := initial; log := [] |} =
      (inr tt, {| app := failed initial (lit "No content generated");
                  log := [] ++ l |}) /\
    workflow (failed initial (lit "No content generated"))
      = Idle (Some (lit "No content generated")) /\
    In (ConsoleError (Error (lit "No content generated"))) l /\
    views_set l = [processing; upload].
Proof.
  apply (empty_response_returns_to_idle (answering (Some [])) paper_pdf
           {| app := initial; log := [] |}).
  - reflexivity.
  - reflexivity.
  - right. reflexivity.
Defined.

(** A non-empty text that does not parse ends the submission in [Idle]
    with the parser's message, or the fallback message when that is
    empty. *)
Lemma unparsable_response_returns_to_idle
  (p : Platform) (f : File) (w : World) (text : jsstring)
  (Hctor : newGoogleGenAI p = None)
  (Hread : readFails p f = false)
  (Hans : generateContent p (request f (payload f)) = inr (Some text))
  (Htext : text <> [])
  (Hparse : JSON_parse text = None) :
  app (snd (handleFileSelect p f w))
    = failed (app w) (str_or (syntaxErrorMessage p) fallback_message).
Proof.
  pose proof (handleFileSelect_cases p f w) as H. cbv zeta in H.
  rewrite Hctor, Hread, Hans in H.
  destruct text as [|c t]; [contradiction|].
  rewrite Hparse in H. rewrite H. reflexivity.
Qed.

(** C1, as the code has it. A response whose text parses as JSON is
    stored as the result and the workflow reaches [Ready] with it, with no
    error, whatever properties the parsed value has or lacks: the only
    check between the service's answer and [Ready] is [JSON.parse]. *)
Theorem parsed_response_reaches_ready
  (p : Platform) (f : File) (w : World) (text : jsstring) (v : json)
  (Hctor : newGoogleGenAI p = None)
  (Hread : readFails p f = false)
  (Hans : generateContent p (request f (payload f)) = inr (Some text))
  (Hparse : JSON_parse text = Some v) :
  handleFileSelect p f w =
    (inr tt, {| app := succeeded (app w) v;
                log := log w ++ [SetView processing; SetError None;
                                 CallGenerateContent (request f (payload f));
                                 SetData v; SetView dashboard] |}) /\
  workflow (succeeded (app w) v) = Ready v /\
  error (succeeded (app w) v) = None.
Proof.
  pose proof (handleFileSelect_cases p f w) as H. cbv zeta in H.
  rewrite Hctor, Hread, Hans in H.
  destruct text as [|c t]; [rewrite JSON_parse_empty in Hparse; discriminate|].
  rewrite Hparse in H. rewrite H. repeat split.
Qed.

Lemma parsed_response_reaches_ready_witness :
  handleFileSelect (answering (Some (lit "[1]"))) paper_pdf
                   {| app := initial; log := [] |} =
    (inr tt, {| app := succeeded initial (JArray [JNumber 1]);
                log := [] ++ [SetView processing; SetError None;
                              CallGenerateContent (request paper_pdf (payload paper_pdf));
                              SetData (JArray [JNumber 1]); SetView dashboard] |}) /\
  workflow (succeeded initial (JArray [JNumber 1])) = Ready (JArray [JNumber 1]) /\
  error (succeeded initial (JArray [JNumber 1])) = None.
Proof.
  apply (parsed_response_reaches_ready (answering (Some (lit "[1]")))
           paper_pdf {| app := initial; log := [] |} (lit "[1]")).
  - reflexivity.
  - reflexivity.
  - reflexivity.
  - reflexivity.
Defined.

(** C1, as stated, fails: the text [{}] parses as JSON and has none of
    the six required properties, yet the submission does not fail; the
    workflow is [Ready] with the empty object and no error is set. *)
Lemma missing_fields_reach_ready :
  JSON_parse (lit "{}") = Some (JObject []) /\
  missing_required (JObject []) /\
  as_AnalysisData (JObject []) = None /\
  fst (handleFileSelect (answering (Some (lit "{}"))) paper_pdf
                        {| app := initial; log := [] |}) = inr tt /\
  workflow (app (snd (handleFileSelect (answering (Some (lit "{}"))) paper_pdf
                                       {| app := initial; log := [] |})))
    = Ready (JObject []) /\
  error (app (snd (handleFileSelect (answering (Some (lit "{}"))) paper_pdf
                                    {| app := initial; log := [] |})))
    = None.
Proof.
  repeat split; try reflexivity.
  exists (lit "metadata"). split; [simpl; auto | reflexivity].
Qed.

(* ------------------------------------------------------------------ *)
(** ** The workflow state machine                                      *)
(* ------------------------------------------------------------------ *)

(** Every submission requests the processing view first and exactly one
    other view after it: the dashboard, with no error, or the upload view,
    with an error message. It never throws. *)
Lemma handleFileSelect_trace (p : Platform) (f : File) (w : World) :
  exists (l : list Effect) (s' : AppState) (final : ViewState),
    handleFileSelect p f w = (inr tt, {| app := s'; log := log w ++ l |}) /\
    views_set l = [processing; final] /\
    view s' = final /\
    ((final = dashboard /\ error s' = None) \/
     (final = upload /\ exists msg, error s' = Some msg)).
Proof.
  pose proof (handleFileSelect_cases p f w) as H. cbv zeta in H.
  destruct (newGoogleGenAI p) as [e|].
  { eexists _, _, upload. split; [exact H|]. simpl. eauto 6. }
  destruct (readFails p f).
  { eexists _, _, upload. split; [exact H|]. simpl. eauto 6. }
  destruct (generateContent p _) as [e | [[|c t]|]];
    try (eexists _, _, upload; split; [exact H|]; simpl; eauto 6).
  destruct (JSON_parse (c :: t)).
  - eexists _, _, dashboard. split; [exact H|]. simpl. auto.
  - eexists _, _, upload. split; [exact H|]. simpl. eauto 6.
Qed.

Lemma render_upload (s : AppState) :
  view s = upload -> exists banner, render s = UploadScreen banner.
Proof. unfold render. intros ->. eauto. Qed.

Lemma render_processing (s : AppState) :
  view s = processing -> render s = ProcessingScreen.
Proof. unfold render. intros ->. reflexivity. Qed.

Lemma dispatch_files_upload (p : Platform) (s : AppState) (f : File)
  (rest : list File) :
  view s = upload ->
  dispatch p s (DropFiles (f :: rest))
    = Some (validateAndProcess (handleFileSelect p) f {| app := s; log := [] |}) /\
  dispatch p s (ChooseFiles (f :: rest))
    = Some (validateAndProcess (handleFileSelect p) f {| app := s; log := [] |}).
Proof.
  intros Hv. destruct (render_upload s Hv) as [b Hb].
  unfold dispatch, handler. rewrite Hb. split; reflexivity.
Qed.

(** The export action changes no state cell, whether it completes or
    throws. *)
Lemma handleDownload_state (p : Platform) (w : World) :
  app (snd (handleDownload p w)) = app w.
Proof.
  unfold handleDownload, bind, getData, await, throw, emit, ret.
  destruct (truthy (data (app w))); cbn [negb]; [|reflexivity].
  destruct (member p (Some (data (app w))) (lit "metadata")) as [e|md];
    [reflexivity|].
  destruct (member p md (lit "title")) as [e|ti]; [reflexivity|].
  destruct (call_replace p ti); reflexivity.
Qed.

(** C2. (a) Submitting an accepted file from [Idle], by drop or by the
    file dialog, runs to completion without throwing; the first view it
    requests is the processing view and the only other one is the final
    one, which is the dashboard ([Ready]) or the upload view with an error
    message ([Idle] with a last error), so [Processing] never follows
    [Processing]. (b) While the view is processing no event has a
    handler. (c) From the dashboard every event that has a handler leaves
    view and result as they are, except the click on the logo, which goes
    back to the upload view. *)
Theorem workflow_transitions :
  (forall (p : Platform) (s : AppState) (f : File) (rest : list File)
          (e : Event),
      view s = upload ->
      validate f = Accepted ->
      e = DropFiles (f :: rest) \/ e = ChooseFiles (f :: rest) ->
      exists (l : list Effect) (s' : AppState) (final : ViewState),
        dispatch p s e = Some (inr tt, {| app := s'; log := l |}) /\
        views_set l = [processing; final] /\
        ((final = dashboard /\ workflow s' = Ready (data s') /\ error s' = None) \/
         (final = upload /\ exists msg, workflow s' = Idle (Some msg))))
  /\
  (forall (p : Platform) (s : AppState) (e : Event),
      view s = processing -> dispatch p s e = None)
  /\
  (forall (p : Platform) (s : AppState) (e : Event)
          (r : exn + unit) (w' : World),
      view s = dashboard ->
      dispatch p s e = Some (r, w') ->
      (e = ClickLogo /\ workflow (app w') = Idle (error s)) \/
      (e <> ClickLogo /\ workflow (app w') = workflow s)).
Proof.
  split; [|split].
  - intros p s f rest e Hv Hacc He.
    destruct (dispatch_files_upload p s f rest Hv) as [Hd Hc].
    assert (Hrun : dispatch p s e
                   = Some (handleFileSelect p f {| app := s; log := [] |})).
    { rewrite validateAndProcess_validate, Hacc in Hd, Hc.
      destruct He as [-> | ->]; assumption. }
    destruct (handleFileSelect_trace p f {| app := s; log := [] |})
      as (l & s' & final & Hrun' & Hviews & Hfinal & Hcase).
    exists l, s', final. rewrite Hrun, Hrun'. simpl.
    split; [reflexivity|]. split; [assumption|].
    unfold workflow. rewrite Hfinal.
    destruct Hcase as [[-> Herr] | [-> [msg Herr]]].
    + left. auto.
    + right. split; [reflexivity|]. exists msg. rewrite Herr. reflexivity.
  - intros p s e Hv. unfold dispatch, handler.
    rewrite (render_processing s Hv). destruct e; reflexivity.
  - intros p s e r w' Hv. unfold dispatch, handler, render.
    rewrite Hv. destruct (truthy (data s)) eqn:Ht;
      [|destruct e; discriminate].
    destruct e; cbv beta iota delta [option_map]; try discriminate;
      intros Hrun; apply (f_equal (option_map snd)) in Hrun;
      cbn [option_map snd] in Hrun; injection Hrun as Hrun; subst w'.
    + left. split; [reflexivity|]. reflexivity.
    + right. split; [discriminate|]. reflexivity.
    + right. split; [discriminate|].
      rewrite handleDownload_state. reflexivity.
    + right. split; [discriminate|]. unfold workflow. simpl.
      rewrite Hv. reflexivity.
Qed.

Lemma workflow_transitions_witness :
  (exists (l : list Effect) (s' : AppState) (final : ViewState),
      dispatch (answering (Some (lit "{}"))) initial (DropFiles [paper_pdf])
        = Some (inr tt, {| app := s'; log := l |}) /\
      views_set l = [processing; final] /\
      ((final = dashboard /\ workflow s' = Ready (data s') /\ error s' = None) \/
       (final = upload /\ exists msg, workflow s' = Idle (Some msg))))
  /\
  dispatch (answering None) sample_processing (DropFiles [paper_pdf]) = None
  /\
  ((ClickLogo = ClickLogo /\
    workflow (app {| app := sample_reset; log := [SetView upload] |})
      = Idle (error sample_ready)) \/
   (ClickLogo <> ClickLogo /\
    workflow (app {| app := sample_reset; log := [SetView upload] |})
      = workflow sample_ready)).
Proof.
  split; [|split].
  - apply (proj1 workflow_transitions (answering (Some (lit "{}"))) initial
             paper_pdf [] (DropFiles [paper_pdf])).
    + reflexivity.
    + reflexivity.
    + left. reflexivity.
  - apply (proj1 (proj2 workflow_transitions)). reflexivity.
  - apply (proj2 (proj2 workflow_transitions) (answering None) sample_ready
             ClickLogo (inr tt)).
    + reflexivity.
    + reflexivity.
Defined.

(* ------------------------------------------------------------------ *)
(** ** Rejected files                                                  *)
(* ------------------------------------------------------------------ *)

(** C5, as the code has it. A file rejected by validation leaves every
    state cell as it was, so the workflow stays [Idle] with the last error
    it already had; the rejection is reported by the browser's alert box
    and by nothing else: no error is set and nothing is logged to the
    console. *)
Theorem rejected_file_alerts
  (p : Platform) (s : AppState) (f : File) (rest : list File) (e : Event)
  (Hidle : view s = upload)
  (Hrej : validate f = Rejected UnsupportedFormat)
  (He : e = DropFiles (f :: rest) \/ e = ChooseFiles (f :: rest)) :
  dispatch p s e
    = Some (inr tt, {| app := s; log := [Alert rejection_notice] |}) /\
  workflow s = Idle (error s).
Proof.
  destruct (dispatch_files_upload p s f rest Hidle) as [Hd Hc].
  rewrite validateAndProcess_validate, Hrej in Hd, Hc.
  split.
  - destruct He as [-> | ->]; assumption.
  - unfold workflow. rewrite Hidle. reflexivity.
Qed.

Lemma rejected_file_alerts_witness :
  dispatch (answering None) initial (DropFiles [notes_txt])
    = Some (inr tt, {| app := initial; log := [Alert rejection_notice] |}) /\
  workflow initial = Idle (error initial).
Proof.
  apply (rejected_file_alerts (answering None) initial notes_txt []
           (DropFiles [notes_txt])).
  - reflexivity.
  - reflexivity.
  - left. reflexivity.
Defined.

(** C5, as stated, fails: the text file with no declared type is
    rejected, and afterwards the last error is still absent, where a
    failed extraction from the same state sets it. *)
Lemma rejection_not_in_error_channel :
  validate notes_txt = Rejected UnsupportedFormat /\
  option_map (fun rw => error (app (snd rw)))
             (dispatch (answering None) initial (DropFiles [notes_txt]))
    = Some None /\
  option_map (fun rw => render (app (snd rw)))
             (dispatch (answering None) initial (DropFiles [notes_txt]))
    = Some (UploadScreen None) /\
  option_map (fun rw => error (app (snd rw)))
             (dispatch (answering None) initial (DropFiles [paper_pdf]))
    = Some (Some (lit "No content generated")).
Proof. repeat split. Qed.

(* ------------------------------------------------------------------ *)
(** ** The media type that is transmitted                              *)
(* ------------------------------------------------------------------ *)

Lemma inlineMimeType_not_markdown (f : File) :
  inlineMimeType f <> lit "text/markdown".
Proof.
  unfold inlineMimeType.
  destruct (str_eqb (mimeType f) (lit "text/markdown")) eqn:E.
  - discriminate.
  - intros H. apply str_eqb_eq in H. congruence.
Qed.

Lemma inlineMimeType_markdown (f : File) :
  type f = lit "text/markdown" -> inlineMimeType f = lit "text/plain".
Proof.
  intros H. unfold inlineMimeType, mimeType. rewrite H. reflexivity.
Qed.

Lemma inlineMimeType_closed (f : File) :
  type f = [] \/ In (type f) validTypes -> In (inlineMimeType f) closed_set.
Proof.
  unfold inlineMimeType, mimeType, validTypes, closed_set.
  intros [H | [H | [H | [H | []]]]].
  - rewrite H. cbn [str_or nonempty].
    destruct (endsWith (name f) (lit ".md")); simpl; auto.
  - rewrite <- H. simpl. auto.
  - rewrite <- H. simpl. auto.
  - rewrite <- H. simpl. auto.
Qed.

Lemma inlineMimeType_verbatim (f : File) :
  type f <> [] -> type f <> lit "text/markdown" -> inlineMimeType f = type f.
Proof.
  intros Hne Hmd. unfold inlineMimeType, mimeType, str_or.
  destruct (type f) as [|c t] eqn:E; [contradiction|]. cbn [nonempty].
  destruct (str_eqb (c :: t) (lit "text/markdown")) eqn:E'; [|reflexivity].
  apply str_eqb_eq in E'. contradiction.
Qed.

(** A submission sends at most one request, and it is [request]. *)
Lemma handleFileSelect_requests (p : Platform) (f : File) (s : AppState) :
  let l := log (snd (handleFileSelect p f {| app := s; log := [] |})) in
  requests_sent l = [] \/ requests_sent l = [request f (payload f)].
Proof.
  pose proof (handleFileSelect_cases p f {| app := s; log := [] |}) as H.
  cbv zeta in *. rewrite H. clear H.
  destruct (newGoogleGenAI p); [left; reflexivity|].
  destruct (readFails p f); [left; reflexivity|].
  destruct (generateContent p _) as [e | [[|c t]|]];
    try (right; reflexivity).
  destruct (JSON_parse (c :: t)); right; reflexivity.
Qed.

(** C4, as the code has it. Whatever request a submission sends carries,
    with the payload, the tag [inlineMimeType]: it is never
    [text/markdown], which is sent as [text/plain]; it is one of
    [application/pdf] and [text/plain] whenever the declared type is empty
    or on the allow-list; and any other declared type is sent as
    declared. *)
Theorem transmitted_media_type
  (p : Platform) (f : File) (s : AppState) (req : GenerateContentParameters)
  (Hsent : In req (requests_sent
                     (log (snd (handleFileSelect p f {| app := s; log := [] |}))))) :
  parts req = [InlineData (inlineMimeType f) (payload f); Text instruction] /\
  inlineMimeType f <> lit "text/markdown" /\
  (type f = lit "text/markdown" -> inlineMimeType f = lit "text/plain") /\
  (type f = [] \/ In (type f) validTypes -> In (inlineMimeType f) closed_set) /\
  (type f <> [] -> type f <> lit "text/markdown" -> inlineMimeType f = type f).
Proof.
  destruct (handleFileSelect_requests p f s) as [H | H];
    cbv zeta in H; rewrite H in Hsent; simpl in Hsent; [contradiction|].
  destruct Hsent as [<- | []].
  split; [reflexivity|].
  split; [apply inlineMimeType_not_markdown|].
  split; [apply inlineMimeType_markdown|].
  split; [apply inlineMimeType_closed | apply inlineMimeType_verbatim].
Qed.

Lemma transmitted_media_type_witness :
  parts (request paper_pdf (payload paper_pdf))
    = [InlineData (inlineMimeType paper_pdf) (payload paper_pdf);
       Text instruction] /\
  inlineMimeType paper_pdf <> lit "text/markdown" /\
  (type paper_pdf = lit "text/markdown" ->
   inlineMimeType paper_pdf = lit "text/plain") /\
  (type paper_pdf = [] \/ In (type paper_pdf) validTypes ->
   In (inlineMimeType paper_pdf) closed_set) /\
  (type paper_pdf <> [] -> type paper_pdf <> lit "text/markdown" ->
   inlineMimeType paper_pdf = type paper_pdf).
Proof.
  apply (transmitted_media_type (answering (Some (lit "{}"))) paper_pdf initial).
  left. reflexivity.
Defined.

(** C4, as stated, fails: a file named [notes.md] with the declared type
    [text/x-markdown] is accepted, and the one request sent for it is
    tagged [text/x-markdown], which is neither [application/pdf] nor
    [text/plain]. *)
Lemma declared_type_sent_verbatim :
  validate notes_x_md = Accepted /\
  map parts
      (requests_sent
         (log (snd (handleFileSelect (answering (Some (lit "{}"))) notes_x_md
                                     {| app := initial; log := [] |}))))
    = [[InlineData (lit "text/x-markdown") (Some (lit "IyBIaQ=="));
        Text instruction]] /\
  ~ In (lit "text/x-markdown") closed_set.
Proof.
  split; [reflexivity|]. split; [reflexivity|].
  unfold closed_set. simpl. intros [H | [H | []]]; discriminate.
Qed.

(* ------------------------------------------------------------------ *)
(** ** The transport encoding                                          *)
(* ------------------------------------------------------------------ *)

Ltac divmod_lia := zify; Z.to_euclidean_division_equations; lia.

Ltac case_ltb :=
  repeat match goal with
         | |- context [?a <? ?b] => destruct (N.ltb_spec a b)
         | |- context [?a <=? ?b] => destruct (N.leb_spec a b)
         | |- context [?a =? ?b] => destruct (N.eqb_spec a b)
         end.

Lemma b64_value_char (n : N) : n < 64 -> b64_value (b64_char n) = Some n.
Proof.
  intros H. unfold b64_char.
  destruct (N.ltb_spec n 26); [|destruct (N.ltb_spec n 52);
    [|destruct (N.ltb_spec n 62); [|destruct (N.eqb_spec n 62)]]];
    unfold b64_value; case_ltb; cbn [andb]; try lia; f_equal; lia.
Qed.

Lemma b64_char_not_pad (n : N) : (b64_char n =? b64_pad) = false.
Proof.
  apply N.eqb_neq. unfold b64_char, b64_pad. case_ltb; lia.
Qed.

Lemma b64_char_not_comma (n : N) : b64_char n <> comma.
Proof. unfold b64_char, comma. case_ltb; lia. Qed.

Lemma byte_of_to_N (b : byte) : byte_of_N (Byte.to_N b) = b.
Proof. unfold byte_of_N. rewrite Byte.of_to_N. reflexivity. Qed.

Lemma byte_bound (b : byte) : Byte.to_N b <= 255.
Proof. apply Byte.to_N_bounded. Qed.

(** Induction over a byte sequence three bytes at a time. *)
Lemma bytes_ind3 (P : list byte -> Prop) :
  P [] ->
  (forall a, P [a]) ->
  (forall a b, P [a; b]) ->
  (forall a b c rest, P rest -> P (a :: b :: c :: rest)) ->
  forall bs, P bs.
Proof.
  intros H0 H1 H2 H3 bs.
  enough (P bs /\ (forall a, P (a :: bs)) /\ (forall a b, P (a :: b :: bs)))
    by tauto.
  induction bs as [|c rest (IH0 & IH1 & IH2)]; auto.
Qed.

Lemma group_first (a b : N) :
  a <= 255 -> b <= 255 ->
  a / 4 < 64 /\ (a mod 4) * 16 + b / 16 < 64 /\
  a / 4 * 4 + ((a mod 4) * 16 + b / 16) / 16 = a.
Proof. intros. repeat split; divmod_lia. Qed.

Lemma group_second (a b c : N) :
  a <= 255 -> b <= 255 -> c <= 255 ->
  (b mod 16) * 4 + c / 64 < 64 /\
  (((a mod 4) * 16 + b / 16) mod 16) * 16 + ((b mod 16) * 4 + c / 64) / 4 = b.
Proof. intros. repeat split; divmod_lia. Qed.

Lemma group_third (b c : N) :
  b <= 255 -> c <= 255 ->
  c mod 64 < 64 /\
  (((b mod 16) * 4 + c / 64) mod 4) * 64 + c mod 64 = c.
Proof. intros. repeat split; divmod_lia. Qed.

(** Decoding what the encoder produced gives the bytes back. *)
Lemma base64_roundtrip (bs : list byte) :
  base64_decode (base64_encode bs) = Some bs.
Proof.
  induction bs as [|a|a b|a b c rest IH] using bytes_ind3.
  - reflexivity.
  - pose proof (byte_bound a) as Ha.
    destruct (group_first (Byte.to_N a) 0 Ha ltac:(lia)) as (A1 & A2 & A3).
    change (0 / 16) with 0 in *. rewrite N.add_0_r in *.
    cbn [base64_encode base64_decode].
    rewrite !b64_value_char by assumption.
    rewrite N.eqb_refl, A3, byte_of_to_N. reflexivity.
  - pose proof (byte_bound a) as Ha. pose proof (byte_bound b) as Hb.
    destruct (group_first (Byte.to_N a) (Byte.to_N b) Ha Hb) as (A1 & A2 & A3).
    destruct (group_second (Byte.to_N a) (Byte.to_N b) 0 Ha Hb ltac:(lia))
      as (B1 & B2).
    change (0 / 64) with 0 in *. rewrite N.add_0_r in *.
    cbn [base64_encode base64_decode].
    rewrite !b64_value_char by assumption.
    rewrite N.eqb_refl, b64_char_not_pad, A3, B2, !byte_of_to_N. reflexivity.
  - pose proof (byte_bound a) as Ha. pose proof (byte_bound b) as Hb.
    pose proof (byte_bound c) as Hc.
    destruct (group_first (Byte.to_N a) (Byte.to_N b) Ha Hb) as (A1 & A2 & A3).
    destruct (group_second (Byte.to_N a) (Byte.to_N b) (Byte.to_N c) Ha Hb Hc)
      as (B1 & B2).
    destruct (group_third (Byte.to_N b) (Byte.to_N c) Hb Hc) as (C1 & C2).
    cbn [base64_encode]. cbn [base64_decode]. fold base64_decode.
    rewrite !b64_value_char by assumption.
    rewrite b64_char_not_pad, IH, A3, B2, C2, !byte_of_to_N. reflexivity.
Qed.

Lemma split_none (sep : N) (s : jsstring) : ~ In sep s -> split sep s = [s].
Proof.
  induction s as [|c r IH]; intros H; simpl; [reflexivity|].
  destruct (N.eqb_spec c sep) as [->|_]; [exfalso; apply H; left; reflexivity|].
  rewrite IH; [reflexivity|]. intros Hin. apply H. right. assumption.
Qed.

Lemma split_at (sep : N) (h body : jsstring) :
  ~ In sep h -> split sep (h ++ sep :: body) = h :: split sep body.
Proof.
  induction h as [|c r IH]; intros H; simpl.
  - rewrite N.eqb_refl. reflexivity.
  - destruct (N.eqb_spec c sep) as [->|_]; [exfalso; apply H; left; reflexivity|].
    rewrite IH; [reflexivity|]. intros Hin. apply H. right. assumption.
Qed.

Lemma base64_encode_no_comma (bs : list byte) : ~ In comma (base64_encode bs).
Proof.
  induction bs as [|a|a b|a b c rest IH] using bytes_ind3;
    cbn [base64_encode In]; intros H;
    repeat (destruct H as [H | H];
            [first [exact (b64_char_not_comma _ H) | discriminate H]|]);
    auto.
Qed.

Lemma dataURL_shape (f : File) :
  dataURL f =
  (lit "data:" ++ str_or (type f) (lit "application/octet-stream")
   ++ lit ";base64") ++ comma :: base64_encode (content f).
Proof. unfold dataURL. rewrite <- !app_assoc. reflexivity. Qed.

(** The second piece of the data URL is the base-64 text of the content,
    provided the declared media type has no comma in it (no media type
    has: RFC 2045 excludes the comma from type and subtype names). *)
Lemma payload_is_base64 (f : File) :
  ~ In comma (type f) -> payload f = Some (base64_encode (content f)).
Proof.
  intros Hty. unfold payload. rewrite dataURL_shape, split_at.
  - rewrite split_none by apply base64_encode_no_comma. reflexivity.
  - rewrite !in_app_iff. intros [H | [H | H]].
    + simpl in H. unfold comma in H. intuition discriminate.
    + unfold str_or in H. destruct (nonempty (type f)); [contradiction|].
      simpl in H. unfold comma in H. intuition discriminate.
    + simpl in H. unfold comma in H. intuition discriminate.
Qed.

(** C6. Decoding the base-64 text of any byte sequence yields exactly
    that sequence; and the payload that [readFileBase64] hands to the
    request is that text for the file's bytes, so decoding what is
    transmitted gives the file's content back. The second part is for
    every file name and every declared media type free of commas. *)
Theorem transport_encoding_roundtrip :
  (forall b : list byte, base64_decode (base64_encode b) = Some b)
  /\
  (forall (p : Platform) (f : File),
      readFails p f = false ->
      ~ In comma (type f) ->
      exists s : jsstring,
        readFileBase64 p f = inr (Some s) /\
        s = base64_encode (content f) /\
        base64_decode s = Some (content f)).
Proof.
  split; [exact base64_roundtrip|].
  intros p f Hread Htype.
  exists (base64_encode (content f)).
  split; [|split; [reflexivity | apply base64_roundtrip]].
  unfold readFileBase64. rewrite Hread.
  fold (payload f). rewrite payload_is_base64 by assumption. reflexivity.
Qed.

Lemma transport_encoding_roundtrip_witness :
  base64_decode (base64_encode [x23; x20; x48; x69])
    = Some [x23; x20; x48; x69] /\
  exists s : jsstring,
    readFileBase64 (answering None) notes_md = inr (Some s) /\
    s = base64_encode (content notes_md) /\
    base64_decode s = Some (content notes_md).
Proof.
  split.
  - apply (proj1 transport_encoding_roundtrip).
  - apply (proj2 transport_encoding_roundtrip (answering None) notes_md).
    + reflexivity.
    + simpl. tauto.
Defined.

(* ------------------------------------------------------------------ *)
(** ** The exported file                                               *)
(* ------------------------------------------------------------------ *)

(** [runs] cuts the string and loses nothing. *)
Lemma runs_concat (p : N -> bool) (s : jsstring) :
  concat (map snd (runs p s)) = s.
Proof.
  induction s as [|c r IH]; [reflexivity|]. simpl.
  destruct (runs p r) as [|[b run] rest]; simpl in *.
  - rewrite <- IH. reflexivity.
  - destruct (Bool.eqb (p c) b); simpl; rewrite <- IH; reflexivity.
Qed.

(** Each run is non-empty and made of units of one kind only. *)
Lemma runs_uniform (p : N -> bool) (s : jsstring) :
  Forall (fun tr => snd tr <> [] /\ Forall (fun c => p c = fst tr) (snd tr))
         (runs p s).
Proof.
  induction s as [|c r IH]; simpl; [constructor|].
  destruct (runs p r) as [|[b run] rest].
  - repeat constructor. discriminate.
  - inversion IH as [|? ? [Hne Hall] Hrest]; subst.
    destruct (Bool.eqb (p c) b) eqn:E.
    + apply Bool.eqb_prop in E. constructor; [|assumption].
      simpl in *. split; [discriminate|]. constructor; assumption.
    + constructor; [|assumption]. simpl. split; [discriminate|].
      repeat constructor.
Qed.

(** Runs are maximal: neighbours are of different kinds. *)
Lemma runs_maximal (p : N -> bool) (s : jsstring) : alternating (runs p s).
Proof.
  induction s as [|c r IH]; simpl; [exact I|].
  destruct (runs p r) as [|[b run] rest]; [exact I|].
  destruct (Bool.eqb (p c) b) eqn:E.
  - destruct rest; [exact I|]. simpl in *. assumption.
  - simpl. split; [|assumption]. intros H. rewrite H in E.
    rewrite Bool.eqb_reflx in E. discriminate.
Qed.

Lemma runs_head (p : N -> bool) (c : N) (r : jsstring) :
  exists run rest, runs p (c :: r) = (p c, c :: run) :: rest.
Proof.
  simpl. destruct (runs p r) as [|[b run] rest]; [eauto|].
  destruct (Bool.eqb (p c) b) eqn:E; [|eauto].
  apply Bool.eqb_prop in E. subst. eauto.
Qed.

Lemma underscore_runs_copy (c : N) (r : jsstring) :
  isWhiteSpace c = false -> underscore_runs (c :: r) = c :: underscore_runs r.
Proof.
  intros Hc. unfold underscore_runs. simpl.
  destruct (runs isWhiteSpace r) as [|[b run] rest]; simpl.
  - rewrite Hc. reflexivity.
  - rewrite Hc. destruct b; simpl; rewrite ?Hc; reflexivity.
Qed.

Lemma underscore_runs_skip (c : N) (r : jsstring) :
  isWhiteSpace c = true ->
  underscore_runs (c :: r)
    = underscore :: underscore_runs (snd (span isWhiteSpace r)).
Proof.
  intros Hc. revert c Hc. induction r as [|d r IH]; intros c Hc.
  - unfold underscore_runs. simpl. rewrite Hc. reflexivity.
  - cbn [span]. destruct (isWhiteSpace d) eqn:Hd.
    + pose proof (IH d Hd) as IHd.
      destruct (span isWhiteSpace r) as [run rest]. cbn [snd] in *.
      rewrite <- IHd.
      destruct (runs_head isWhiteSpace d r) as (run' & rest' & Hr).
      unfold underscore_runs. cbn [runs]. cbn [runs] in Hr. rewrite Hr.
      rewrite Hc, Hd. reflexivity.
    + cbn [snd].
      destruct (runs_head isWhiteSpace d r) as (run' & rest' & Hr).
      unfold underscore_runs. cbn [runs]. cbn [runs] in Hr. rewrite Hr.
      rewrite Hc, Hd. reflexivity.
Qed.

(** The regular-expression replacement of the source is the replacement
    of maximal white-space runs. *)
Lemma replace_ws_runs (s : jsstring) :
  replace_ws [underscore] s = underscore_runs s.
Proof.
  remember [underscore] as x eqn:Hx.
  funelim (replace_ws x s); subst.
  - reflexivity.
  - rewrite underscore_runs_skip by assumption.
    match goal with IH : replace_ws _ ?t = underscore_runs ?t |- _ =>
      rewrite IH end.
    reflexivity.
  - rewrite underscore_runs_copy by assumption.
    match goal with IH : replace_ws _ ?t = underscore_runs ?t |- _ =>
      rewrite IH end.
    reflexivity.
Qed.

(** What a value of the declared type has where the export reads. *)
Lemma as_AnalysisData_fields (v : json) (d : AnalysisData) :
  as_AnalysisData v = Some d ->
  (exists members, v = JObject members) /\
  get v (lit "fullMarkdownReport") = Some (JString (fullMarkdownReport d)) /\
  exists ms,
    get v (lit "metadata") = Some (JObject ms) /\
    lookup (lit "title") ms = Some (JString (title (metadata d))).
Proof.
  unfold as_AnalysisData. intros H.
  destruct v as [| | | | |members]; try discriminate H.
  split; [eauto|].
  destruct (get (JObject members) (lit "metadata")) as [[| | | | |ms]|];
    try discriminate H.
  unfold as_Metadata in H.
  destruct (lookup (lit "title") ms) as [[| |?|t| |]|] eqn:Ht;
    try discriminate H.
  cbn [as_string] in H.
  destruct (as_string (lookup (lit "author") ms)); try discriminate H.
  destruct (as_string (lookup (lit "genre") ms)); try discriminate H.
  destruct (as_string (lookup (lit "readingTime") ms)); try discriminate H.
  destruct (as_string (get _ (lit "executiveSummary"))); try discriminate H.
  destruct (as_array as_KeyConcept _); try discriminate H.
  destruct (as_array as_Chapter _); try discriminate H.
  destruct (as_array as_TopicStat _); try discriminate H.
  destruct (get _ (lit "fullMarkdownReport")) as [[| | |rep| |]|];
    try discriminate H.
  cbn [as_string] in H. injection H as <-. cbn [fullMarkdownReport metadata title].
  split; [reflexivity|]. exists ms. split; [reflexivity | exact Ht].
Qed.

(** C7. In a [Ready] state whose result has the declared type, the export
    action downloads one file: its name is the title with every maximal
    run of white space replaced by one underscore, followed by
    [_Notes.md]; its content is the full Markdown report, as it is; and
    the state is left as it was. *)
Theorem export_artifact
  (p : Platform) (s : AppState) (d : AnalysisData)
  (Hready : view s = dashboard)
  (Hdata : as_AnalysisData (data s) = Some d) :
  dispatch p s ClickExport =
  Some (inr tt,
        {| app := s;
           log := [Download
                     (underscore_runs (title (metadata d)) ++ lit "_Notes.md")
                     {| blobParts := [Some (JString (fullMarkdownReport d))];
                        blobType := lit "text/markdown" |}] |}).
Proof.
  destruct (as_AnalysisData_fields (data s) d Hdata)
    as ((members & Hobj) & Hrep & ms & Hmeta & Htitle).
  unfold dispatch, handler, render. rewrite Hready, Hobj.
  cbv beta iota delta [option_map truthy]. f_equal.
  unfold handleDownload, bind, getData, await, throw, emit, ret.
  cbn [app log]. rewrite Hobj in *. cbn [truthy negb].
  unfold member. rewrite Hmeta, Hrep. cbn [get]. rewrite Htitle.
  unfold call_replace. rewrite replace_ws_runs. reflexivity.
Qed.

Lemma export_artifact_witness :
  dispatch (answering None) sample_ready ClickExport =
  Some (inr tt,
        {| app := sample_ready;
           log := [Download
                     (underscore_runs (title (metadata sample_data))
                      ++ lit "_Notes.md")
                     {| blobParts :=
                          [Some (JString (fullMarkdownReport sample_data))];
                        blobType := lit "text/markdown" |}] |}).
Proof.
  apply (export_artifact (answering None) sample_ready sample_data).
  - reflexivity.
  - reflexivity.
Defined.

(** The scenario of section 8 (the title [My Book: Part One]), and a
    title with a run of a space, a tab and a no-break space. *)
Example export_scenario :
  underscore_runs (lit "My Book: Part One") ++ lit "_Notes.md"
    = lit "My_Book:_Part_One_Notes.md" /\
  underscore_runs (lit "A" ++ [32; 9; 160] ++ lit "tale of  two")
    = lit "A_tale_of_two".
Proof. split; reflexivity. Qed.

(* ------------------------------------------------------------------ *)
(** ** The analytics view                                              *)
(* ------------------------------------------------------------------ *)

Local Open Scope Q_scope.

Lemma max_or_1_upper (values : list Q) :
  1 <= max_or_1 values /\ forall v, In v values -> v <= max_or_1 values.
Proof.
  induction values as [|a r [IH1 IHall]]; simpl.
  - split; [apply Qle_refl | intros v []].
  - split.
    + apply Qle_trans with (max_or_1 r); [assumption | apply Q.le_max_r].
    + intros v [<- | Hv]; [apply Q.le_max_l|].
      apply Qle_trans with (max_or_1 r); [auto | apply Q.le_max_r].
Qed.

Lemma max_or_1_attained (values : list Q) :
  max_or_1 values == 1 \/ exists v, In v values /\ max_or_1 values == v.
Proof.
  induction values as [|a r IH]; simpl.
  - left. reflexivity.
  - destruct (Q.max_dec a (max_or_1 r)) as [E | E].
    + right. exists a. auto.
    + destruct IH as [IH | (v & Hv & IH)].
      * left. rewrite E. assumption.
      * right. exists v. split; [right; assumption|].
        rewrite E. assumption.
Qed.

(** With a series whose largest value is at least 1, the scale of the
    chart is that largest value. *)
Lemma max_or_1_is_max (values : list Q) (m : Q) :
  is_max m values -> 1 <= m -> max_or_1 values == m.
Proof.
  intros [Hin Hall] H1.
  destruct (max_or_1_upper values) as [_ Hup].
  apply Qle_antisym; [|auto].
  destruct (max_or_1_attained values) as [E | (v & Hv & E)]; rewrite E; auto.
Qed.

Lemma nth_error_BarChart (items : list (jsstring * Q)) (i : nat) :
  nth_error (BarChart items) i =
  option_map (fun item =>
                {| label := fst item; shown := snd item;
                   widthPercent := snd item / max_or_1 (map snd items) * 100 |})
             (nth_error items i).
Proof. unfold BarChart. apply nth_error_map. Qed.

(** C9, as the code has it. In the topic panel every item has its bar, in
    order, labelled with the topic and showing the stored relevance as it
    is; the bar fills relevance / max(largest relevance, 1) of the track,
    which is relevance / largest relevance when the largest is at least 1.
    In the concept panel the number shown is the stored importance as it
    is, and the bar fills importance / 100 of the track: the width in
    percent is the importance itself, not its share of the largest. *)
Theorem bar_widths (d : AnalysisData) :
  (forall (i : nat) (t : TopicStat),
      nth_error (topicStats d) i = Some t ->
      exists bar,
        nth_error (topThemes d) i = Some bar /\
        label bar = topic t /\
        shown bar = relevance t /\
        widthPercent bar
          = relevance t / max_or_1 (map relevance (topicStats d)) * 100 /\
        forall m, is_max m (map relevance (topicStats d)) -> 1 <= m ->
                  proportion bar == relevance t / m)
  /\
  (forall (i : nat) (c : KeyConcept),
      nth_error (firstn 5 (keyConcepts d)) i = Some c ->
      exists bar,
        nth_error (conceptImpact d) i = Some bar /\
        label bar = term c /\
        shown bar = importance c /\
        widthPercent bar = importance c /\
        proportion bar == importance c / 100).
Proof.
  split.
  - intros i t Ht. unfold topThemes.
    rewrite nth_error_BarChart, nth_error_map, Ht. cbn [option_map fst snd].
    rewrite map_map. cbn [snd].
    eexists. split; [reflexivity|]. cbn [label shown widthPercent].
    repeat (split; [reflexivity|]).
    intros m Hm H1. unfold proportion. cbn [widthPercent].
    pose proof (max_or_1_is_max _ m Hm H1) as E.
    assert (Hnz : ~ m == 0).
    { intros Hz. rewrite Hz in H1. unfold Qle in H1. simpl in H1. lia. }
    rewrite E. field. assumption.
  - intros i c Hc. unfold conceptImpact.
    rewrite nth_error_map, Hc. cbn [option_map].
    eexists. split; [reflexivity|]. cbn [label shown widthPercent].
    repeat (split; [reflexivity|]).
    unfold proportion. cbn [widthPercent]. reflexivity.
Qed.

Lemma bar_widths_witness :
  (exists bar,
      nth_error (topThemes sample_data) 0 = Some bar /\
      label bar = topic {| topic := lit "Physics"; relevance := 40 |} /\
      shown bar = relevance {| topic := lit "Physics"; relevance := 40 |} /\
      widthPercent bar
        = relevance {| topic := lit "Physics"; relevance := 40 |}
          / max_or_1 (map relevance (topicStats sample_data)) * 100 /\
      forall m, is_max m (map relevance (topicStats sample_data)) -> 1 <= m ->
                proportion bar
                  == relevance {| topic := lit "Physics"; relevance := 40 |} / m)
  /\
  (exists bar,
      nth_error (conceptImpact sample_data) 0 = Some bar /\
      label bar = term {| term := lit "Entropy"; definition := lit "Disorder.";
                          importance := 50 |} /\
      shown bar = 50 /\
      widthPercent bar = 50 /\
      proportion bar == 50 / 100).
Proof.
  split.
  - apply (proj1 (bar_widths sample_data) 0%nat
             {| topic := lit "Physics"; relevance := 40 |}).
    reflexivity.
  - apply (proj2 (bar_widths sample_data) 0%nat
             {| term := lit "Entropy"; definition := lit "Disorder.";
                importance := 50 |}).
    reflexivity.
Defined.

(** C9, as stated, fails for the concept panel: a single concept of
    importance 50 is the largest of its series, so its bar would fill the
    whole track; it fills half of it. *)
Lemma concept_bar_not_relative_to_max :
  is_max 50 (map importance (keyConcepts sample_data)) /\
  map widthPercent (conceptImpact sample_data) = [50] /\
  ~ (forall bar, In bar (conceptImpact sample_data) ->
                 proportion bar == shown bar / 50).
Proof.
  split; [|split].
  - split; [left; reflexivity|].
    intros v [<- | []]. apply Qle_refl.
  - reflexivity.
  - intros H. specialize (H _ (or_introl eq_refl)). discriminate H.
Qed.

Local Close Scope Q_scope.

(** C10. The concept panel of the analytics view has one bar for each of
    the first five key concepts, in stored order, and none for a concept
    beyond the fifth; the concepts view has one card for every key
    concept, in the same order. *)
Theorem concept_panel_first_five (d : AnalysisData) :
  (length (conceptImpact d) = Nat.min 5 (length (keyConcepts d)))%nat /\
  (forall i : nat, (i < 5)%nat ->
     nth_error (conceptImpact d) i
       = option_map (fun c => {| label := term c; shown := importance c;
                                 widthPercent := importance c |})
                    (nth_error (keyConcepts d) i)) /\
  (forall i : nat, (5 <= i)%nat -> nth_error (conceptImpact d) i = None) /\
  coreConcepts d = map ConceptCard (keyConcepts d) /\
  (forall i : nat,
     nth_error (coreConcepts d) i
       = option_map ConceptCard (nth_error (keyConcepts d) i)) /\
  length (coreConcepts d) = length (keyConcepts d).
Proof.
  unfold conceptImpact, coreConcepts.
  split; [|split; [|split; [|split; [|split]]]].
  - rewrite length_map, length_firstn. reflexivity.
  - intros i Hi. rewrite nth_error_map, nth_error_firstn.
    destruct (Nat.ltb_spec i 5); [reflexivity | lia].
  - intros i Hi. apply nth_error_None.
    rewrite length_map, length_firstn. lia.
  - reflexivity.
  - intros i. apply nth_error_map.
  - apply length_map.
Qed.

Lemma concept_panel_first_five_witness :
  nth_error (conceptImpact sample_data) 0
    = option_map (fun c => {| label := term c; shown := importance c;
                              widthPercent := importance c |})
                 (nth_error (keyConcepts sample_data) 0) /\
  nth_error (conceptImpact sample_data) 5 = None.
Proof.
  split.
  - apply (proj1 (proj2 (concept_panel_first_five sample_data)) 0%nat). lia.
  - apply (proj1 (proj2 (proj2 (concept_panel_first_five sample_data))) 5%nat).
    lia.
Defined.

(* ================================================================== *)
(** * Part III. Further properties of the code                         *)
(* ================================================================== *)

(* ------------------------------------------------------------------ *)
(** ** Intake                                                          *)
(* ------------------------------------------------------------------ *)

(** A file declared as [application/pdf], or whose name ends in [.pdf],
    is handed on to the pipeline, whatever the rest of its name or its
    declared type. *)
Theorem pdf_is_accepted (k : File -> M unit) (f : File)
  (H : type f = lit "application/pdf" \/ exists stem, name f = stem ++ lit ".pdf") :
  validateAndProcess k f = k f /\ validate f = Accepted.
Proof.
  assert (Hpdf : isPdf f = true).
  { unfold isPdf. destruct H as [-> | [stem ->]];
      [reflexivity | rewrite endsWith_app; apply orb_true_r]. }
  assert (V : validate f = Accepted).
  { unfold validate. unfold isPdf in Hpdf. rewrite Hpdf.
    destruct (endsWith (name f) (lit ".md")
              || endsWith (name f) (lit ".markdown")); reflexivity. }
  split; [|exact V].
  rewrite validateAndProcess_validate, V. reflexivity.
Qed.

Lemma pdf_is_accepted_witness :
  validateAndProcess (handleFileSelect keyless)
                     {| name := lit "scan.PDF.pdf"; type := []; content := [] |}
    = handleFileSelect keyless
        {| name := lit "scan.PDF.pdf"; type := []; content := [] |} /\
  validate {| name := lit "scan.PDF.pdf"; type := []; content := [] |} = Accepted.
Proof.
  apply (pdf_is_accepted (handleFileSelect keyless)
           {| name := lit "scan.PDF.pdf"; type := []; content := [] |}).
  right. exists (lit "scan.PDF"). reflexivity.
Defined.

Lemma endsWith_app_long (stem y x : jsstring) :
  (length x <= length y)%nat -> endsWith (stem ++ y) x = endsWith y x.
Proof.
  intros Hlen. unfold endsWith. rewrite length_app.
  replace (length stem + length y - length x)%nat
    with (length stem + (length y - length x))%nat by lia.
  rewrite skipn_app.
  rewrite (skipn_all2 stem) by lia.
  replace (length stem + (length y - length x) - length stem)%nat
    with (length y - length x)%nat by lia.
  cbn [app]. f_equal.
  destruct (Nat.leb_spec (length x) (length y));
    destruct (Nat.leb_spec (length x) (length stem + length y)); try lia;
    reflexivity.
Qed.

(** A file whose name ends in [.markdown] and for which the browser
    declares no media type is accepted, and is sent tagged
    [application/pdf]: line 251 looks for [.md] only. *)
Theorem long_markdown_extension_tagged_pdf
  (k : File -> M unit) (f : File) (stem : jsstring)
  (Hty : type f = [])
  (Hname : name f = stem ++ lit ".markdown") :
  validateAndProcess k f = k f /\
  inlineMimeType f = lit "application/pdf".
Proof.
  split.
  - rewrite validateAndProcess_validate.
    unfold validate. rewrite Hname, (endsWith_app stem (lit ".markdown")).
    rewrite orb_true_r. reflexivity.
  - unfold inlineMimeType, mimeType. rewrite Hty, Hname.
    rewrite (endsWith_app_long stem (lit ".markdown") (lit ".md"))
      by (simpl; lia).
    reflexivity.
Qed.

Lemma long_markdown_extension_tagged_pdf_witness :
  validateAndProcess (handleFileSelect keyless) notes_markdown
    = handleFileSelect keyless notes_markdown /\
  inlineMimeType notes_markdown = lit "application/pdf".
Proof.
  apply (long_markdown_extension_tagged_pdf (handleFileSelect keyless)
           notes_markdown (lit "notes")).
  - reflexivity.
  - reflexivity.
Defined.

(* ------------------------------------------------------------------ *)
(** ** Failures of a submission                                        *)
(* ------------------------------------------------------------------ *)


(** When the SDK constructor throws, nothing is read and no request is
    sent: the thrown value is logged and its message (or the fallback
    message when it has none) becomes the error of the upload view. *)
Theorem constructor_failure_sends_nothing
  (p : Platform) (f : File) (w : World) (e : exn)
  (Hctor : newGoogleGenAI p = Some e) :
  exists l,
    handleFileSelect p f w =
      (inr tt, {| app := failed (app w) (message_or e fallback_message);
                  log := log w ++ l |}) /\
    requests_sent l = [] /\
    In (ConsoleError e) l /\
    views_set l = [processing; upload].
Proof.
  pose proof (handleFileSelect_cases p f w) as H. cbv zeta in H.
  rewrite Hctor in H. eexists. split; [exact H|].
  repeat split; simpl; auto 6.
Qed.

Lemma constructor_failure_sends_nothing_witness :
  exists l,
    handleFileSelect keyless paper_pdf {| app := initial; log := [] |} =
      (inr tt, {| app := failed initial
                           (message_or (Error (lit "An API Key must be set"))
                                       fallback_message);
                  log := [] ++ l |}) /\
    requests_sent l = [] /\
    In (ConsoleError (Error (lit "An API Key must be set"))) l /\
    views_set l = [processing; upload].
Proof.
  apply (constructor_failure_sends_nothing keyless paper_pdf
           {| app := initial; log := [] |}).
  reflexivity.
Defined.

(** When the file cannot be read, no request is sent, and since the
    reader's error event carries no message the error shown is the
    fallback [Failed to process file.]. *)
Theorem read_failure_shows_fallback
  (p : Platform) (f : File) (w : World)
  (Hctor : newGoogleGenAI p = None)
  (Hread : readFails p f = true) :
  exists l,
    handleFileSelect p f w =
      (inr tt, {| app := failed (app w) (lit "Failed to process file.");
                  log := log w ++ l |}) /\
    requests_sent l = [] /\
    In (ConsoleError ProgressEvent) l /\
    views_set l = [processing; upload].
Proof.
  pose proof (handleFileSelect_cases p f w) as H. cbv zeta in H.
  rewrite Hctor, Hread in H. eexists. split; [exact H|].
  repeat split; simpl; auto 6.
Qed.

Lemma read_failure_shows_fallback_witness :
  exists l,
    handleFileSelect unreadable paper_pdf {| app := initial; log := [] |} =
      (inr tt, {| app := failed initial (lit "Failed to process file.");
                  log := [] ++ l |}) /\
    requests_sent l = [] /\
    In (ConsoleError ProgressEvent) l /\
    views_set l = [processing; upload].
Proof.
  apply (read_failure_shows_fallback unreadable paper_pdf
           {| app := initial; log := [] |}).
  - reflexivity.
  - reflexivity.
Defined.

(** When the service rejects the request, exactly that one request was
    sent, the rejection is logged, and the error shown is the rejection's
    own message when it has a non-empty one, the fallback otherwise. *)
Theorem service_rejection_surfaces_message
  (p : Platform) (f : File) (w : World) (e : exn)
  (Hctor : newGoogleGenAI p = None)
  (Hread : readFails p f = false)
  (Hans : generateContent p (request f (payload f)) = inl e) :
  exists l,
    handleFileSelect p f w =
      (inr tt, {| app := failed (app w) (message_or e fallback_message);
                  log := log w ++ l |}) /\
    requests_sent l = [request f (payload f)] /\
    In (ConsoleError e) l /\
    (forall m, message_of e = Some m -> m <> [] ->
               message_or e fallback_message = m) /\
    (message_of e = None \/ message_of e = Some [] ->
     message_or e fallback_message = lit "Failed to process file.").
Proof.
  pose proof (handleFileSelect_cases p f w) as H. cbv zeta in H.
  rewrite Hctor, Hread, Hans in H. eexists. split; [exact H|].
  split; [reflexivity|]. split; [simpl; auto 6|]. split.
  - intros m Hm Hne. unfold message_or. rewrite Hm.
    destruct m; [contradiction | reflexivity].
  - intros [Hm | Hm]; unfold message_or; rewrite Hm; reflexivity.
Qed.

Lemma service_rejection_surfaces_message_witness :
  exists l,
    handleFileSelect (rejecting (Error (lit "quota exceeded"))) paper_pdf
                     {| app := initial; log := [] |} =
      (inr tt, {| app := failed initial
                           (message_or (Error (lit "quota exceeded"))
                                       fallback_message);
                  log := [] ++ l |}) /\
    requests_sent l = [request paper_pdf (payload paper_pdf)] /\
    In (ConsoleError (Error (lit "quota exceeded"))) l /\
    (forall m, message_of (Error (lit "quota exceeded")) = Some m -> m <> [] ->
               message_or (Error (lit "quota exceeded")) fallback_message = m) /\
    (message_of (Error (lit "quota exceeded")) = None \/
     message_of (Error (lit "quota exceeded")) = Some [] ->
     message_or (Error (lit "quota exceeded")) fallback_message
       = lit "Failed to process file.").
Proof.
  apply (service_rejection_surfaces_message
           (rejecting (Error (lit "quota exceeded"))) paper_pdf
           {| app := initial; log := [] |}).
  - reflexivity.
  - reflexivity.
  - reflexivity.
Defined.

Lemma unparsable_response_returns_to_idle_witness :
  app (snd (handleFileSelect (answering (Some (lit "Sorry, I cannot.")))
                             paper_pdf {| app := initial; log := [] |}))
    = failed initial
        (str_or (syntaxErrorMessage (answering (Some (lit "Sorry, I cannot."))))
                fallback_message).
Proof.
  apply (unparsable_response_returns_to_idle
           (answering (Some (lit "Sorry, I cannot."))) paper_pdf
           {| app := initial; log := [] |} (lit "Sorry, I cannot.")).
  - reflexivity.
  - reflexivity.
  - reflexivity.
  - discriminate.
  - reflexivity.
Defined.


(* ------------------------------------------------------------------ *)
(** ** What each event does                                            *)
(* ------------------------------------------------------------------ *)

Lemma handleDownload_cases (p : Platform) (w : World) :
  handleDownload p w =
  if truthy (data (app w)) then
    match title_of (data (app w)) with
    | Some t =>
        (inr tt,
         {| app := app w;
            log := log w ++ [Download (replace_ws [underscore] t ++ lit "_Notes.md")
                                      (export_blob (data (app w)))] |})
    | None => (inl (TypeError (typeErrorMessage p)), w)
    end
  else (inr tt, w).
Proof.
  unfold handleDownload, bind, getData, await, throw, emit, ret, title_of,
    export_blob.
  destruct (truthy (data (app w))) eqn:Ht; cbn [negb]; [|reflexivity].
  unfold member.
  destruct (data (app w)) as [| | | | |ms] eqn:Hd; try discriminate Ht;
    try reflexivity.
  cbn [get].
  destruct (lookup (lit "metadata") ms) as [[| | | | |mm]|]; try reflexivity.
  cbn [get].
  destruct (lookup (lit "title") mm) as [[| | |t| |]|]; reflexivity.
Qed.

(** Every event in every state, in one equation. *)
Lemma dispatch_cases (p : Platform) (s : AppState) (e : Event) :
  dispatch p s e =
  match view s with
  | upload =>
      match e with
      | DropFiles (f :: _) | ChooseFiles (f :: _) =>
          Some (match validate f with
                | Accepted => handleFileSelect p f {| app := s; log := [] |}
                | Rejected _ =>
                    (inr tt, {| app := s; log := [Alert rejection_notice] |})
                end)
      | DropFiles [] | ChooseFiles [] => Some (inr tt, {| app := s; log := [] |})
      | _ => None
      end
  | processing => None
  | dashboard =>
      if truthy (data s) then
        match e with
        | ClickLogo =>
            Some (inr tt,
                  {| app := {| view := upload; activeTab := activeTab s;
                               data := data s; error := error s |};
                     log := [SetView upload] |})
        | ClickPrint => Some (inr tt, {| app := s; log := [WindowPrint] |})
        | ClickExport => Some (handleDownload p {| app := s; log := [] |})
        | ClickTab t =>
            Some (inr tt,
                  {| app := {| view := dashboard; activeTab := t;
                               data := data s; error := error s |};
                     log := [SetActiveTab t] |})
        | _ => None
        end
      else None
  end.
Proof.
  unfold dispatch, handler, render.
  destruct (view s) eqn:Hv.
  - destruct e as [[|f r]|[|f r]| | | |]; cbn [option_map handleDrop handleChange];
      try reflexivity;
      rewrite validateAndProcess_validate; destruct (validate f) as [|[]];
      reflexivity.
  - destruct e; reflexivity.
  - destruct (truthy (data s)); destruct e; try reflexivity.
    unfold setActiveTab, update. cbn [option_map app log]. rewrite Hv.
    reflexivity.
Qed.

(** The two ways a submission ends, with the whole log of each. *)
Lemma handleFileSelect_ends (p : Platform) (f : File) (w : World) :
  (exists text v,
      generateContent p (request f (payload f)) = inr (Some text) /\
      JSON_parse text = Some v /\
      handleFileSelect p f w =
        (inr tt, {| app := succeeded (app w) v;
                    log := log w ++ [SetView processing; SetError None;
                                     CallGenerateContent (request f (payload f));
                                     SetData v; SetView dashboard] |}))
  \/
  (exists e sent,
      (sent = [] \/ sent = [CallGenerateContent (request f (payload f))]) /\
      handleFileSelect p f w =
        (inr tt, {| app := failed (app w) (message_or e fallback_message);
                    log := log w ++ [SetView processing; SetError None] ++ sent
                           ++ [ConsoleError e;
                               SetError (Some (message_or e fallback_message));
                               SetView upload] |})).
Proof.
  pose proof (handleFileSelect_cases p f w) as H. cbv zeta in H.
  destruct (newGoogleGenAI p) as [e|]; [right; exists e, []; auto|].
  destruct (readFails p f); [right; exists ProgressEvent, []; auto|].
  destruct (generateContent p _) as [e | [[|c t]|]];
    try (right; eexists _, [CallGenerateContent _]; split; [auto | exact H]).
  destruct (JSON_parse (c :: t)) as [v|] eqn:Hp.
  - left. exists (c :: t), v. auto.
  - right. eexists _, [CallGenerateContent _]. split; [auto | exact H].
Qed.

Lemma no_whitespace_app (a b : jsstring) :
  no_whitespace (a ++ b) = no_whitespace a && no_whitespace b.
Proof. apply forallb_app. Qed.

Lemma underscore_runs_clean (s : jsstring) :
  no_whitespace s = true -> underscore_runs s = s.
Proof.
  induction s as [|c r IH]; [reflexivity|].
  cbn [no_whitespace forallb]. rewrite andb_true_iff, negb_true_iff.
  intros [Hc Hr]. rewrite underscore_runs_copy by assumption.
  f_equal. apply IH. exact Hr.
Qed.

Lemma replace_ws_no_whitespace (s : jsstring) :
  no_whitespace (replace_ws [underscore] s) = true.
Proof.
  remember [underscore] as x eqn:Hx.
  funelim (replace_ws x s); subst.
  - reflexivity.
  - rewrite no_whitespace_app.
    match goal with IH : no_whitespace _ = true |- _ => rewrite IH end.
    reflexivity.
  - change (no_whitespace (c :: replace_ws [underscore] r))
      with (negb (isWhiteSpace c) && no_whitespace (replace_ws [underscore] r)).
    match goal with IH : no_whitespace _ = true |- _ => rewrite IH end.
    match goal with Hc : isWhiteSpace _ = false |- _ => rewrite Hc end.
    reflexivity.
Qed.

Lemma replace_ws_length (s : jsstring) :
  (length (replace_ws [underscore] s) <= length s)%nat.
Proof.
  remember [underscore] as x eqn:Hx.
  funelim (replace_ws x s); subst.
  - simpl. lia.
  - pose proof (span_length isWhiteSpace r).
    match goal with IH : (length (replace_ws _ _) <= _)%nat |- _ =>
      simpl in *; lia end.
  - match goal with IH : (length (replace_ws _ _) <= _)%nat |- _ =>
      simpl in *; lia end.
Qed.

(** The file-name slug [title.replace(/\s+/g, '_')] never has white space
    in it and is never longer than the title; a title without white space
    is its own slug, so making the slug of a slug changes nothing. *)
Theorem slug_properties (s : jsstring) :
  no_whitespace (replace_ws [underscore] s) = true /\
  (length (replace_ws [underscore] s) <= length s)%nat /\
  (no_whitespace s = true -> replace_ws [underscore] s = s) /\
  replace_ws [underscore] (replace_ws [underscore] s) = replace_ws [underscore] s.
Proof.
  split; [apply replace_ws_no_whitespace|].
  split; [apply replace_ws_length|].
  split.
  - intros H. rewrite replace_ws_runs. apply underscore_runs_clean. exact H.
  - rewrite (replace_ws_runs (replace_ws [underscore] s)).
    apply underscore_runs_clean. apply replace_ws_no_whitespace.
Qed.

Lemma slug_properties_witness :
  replace_ws [underscore] (lit "Walden") = lit "Walden".
Proof.
  apply (proj1 (proj2 (proj2 (slug_properties (lit "Walden"))))).
  reflexivity.
Defined.

(** On the dashboard, the export downloads a file exactly when
    [data.metadata.title] is a string: the file is then named after the
    slug of the title and holds whatever [data.fullMarkdownReport] is
    (possibly nothing); otherwise the handler throws a [TypeError] and
    nothing is downloaded. Either way the state is unchanged. *)
Theorem export_needs_string_title
  (p : Platform) (s : AppState)
  (Hv : view s = dashboard)
  (Ht : truthy (data s) = true) :
  (forall t, title_of (data s) = Some t ->
     dispatch p s ClickExport =
       Some (inr tt,
             {| app := s;
                log := [Download (replace_ws [underscore] t ++ lit "_Notes.md")
                                 (export_blob (data s))] |}))
  /\
  (title_of (data s) = None ->
     dispatch p s ClickExport =
       Some (inl (TypeError (typeErrorMessage p)), {| app := s; log := [] |})).
Proof.
  rewrite dispatch_cases, Hv, Ht, handleDownload_cases. cbn [app log].
  rewrite Ht. split.
  - intros t E. rewrite E. reflexivity.
  - intros E. rewrite E. reflexivity.
Qed.

Lemma export_needs_string_title_witness :
  dispatch (answering None) sample_ready ClickExport =
    Some (inr tt,
          {| app := sample_ready;
             log := [Download (replace_ws [underscore] (lit "My Book: Part One")
                               ++ lit "_Notes.md")
                              (export_blob (data sample_ready))] |})
  /\
  dispatch (answering None) bare_ready ClickExport =
    Some (inl (TypeError (typeErrorMessage (answering None))),
          {| app := bare_ready; log := [] |}).
Proof.
  split.
  - apply (proj1 (export_needs_string_title (answering None) sample_ready
                    eq_refl eq_refl) (lit "My Book: Part One")).
    reflexivity.
  - apply (proj2 (export_needs_string_title (answering None) bare_ready
                    eq_refl eq_refl)).
    reflexivity.
Defined.

(** Whatever the export downloads has a name free of white space that
    ends in [_Notes.md], is typed [text/markdown], and is the only effect
    of the click. *)
Theorem export_file_name
  (p : Platform) (s : AppState) (r : exn + unit) (w' : World)
  (nm : jsstring) (blob : Blob)
  (H : dispatch p s ClickExport = Some (r, w'))
  (Hin : In (Download nm blob) (log w')) :
  no_whitespace nm = true /\
  endsWith nm (lit "_Notes.md") = true /\
  blobType blob = lit "text/markdown" /\
  log w' = [Download nm blob] /\
  app w' = s.
Proof.
  rewrite dispatch_cases in H.
  destruct (view s); try discriminate H.
  destruct (truthy (data s)) eqn:Ht; [|discriminate H].
  rewrite handleDownload_cases in H. cbn [app log] in H. rewrite Ht in H.
  destruct (title_of (data s)) as [t|]; injection H as <- <-;
    cbn [log] in Hin; [|contradiction].
  destruct Hin as [[= <- <-] | []].
  rewrite no_whitespace_app, replace_ws_no_whitespace, endsWith_app.
  repeat split.
Qed.

Lemma export_file_name_witness :
  no_whitespace (lit "My_Book:_Part_One_Notes.md") = true /\
  endsWith (lit "My_Book:_Part_One_Notes.md") (lit "_Notes.md") = true /\
  blobType (export_blob sample_result) = lit "text/markdown" /\
  log {| app := sample_ready;
         log := [Download (lit "My_Book:_Part_One_Notes.md")
                          (export_blob sample_result)] |}
    = [Download (lit "My_Book:_Part_One_Notes.md") (export_blob sample_result)] /\
  app {| app := sample_ready;
         log := [Download (lit "My_Book:_Part_One_Notes.md")
                          (export_blob sample_result)] |} = sample_ready.
Proof.
  apply (export_file_name (answering None) sample_ready (inr tt)
           {| app := sample_ready;
              log := [Download (lit "My_Book:_Part_One_Notes.md")
                               (export_blob sample_result)] |}).
  - reflexivity.
  - left. reflexivity.
Defined.

Lemma handleFileSelect_effects (p : Platform) (f : File) (s : AppState) :
  forallb pipeline_effect
          (log (snd (handleFileSelect p f {| app := s; log := [] |}))) = true.
Proof.
  destruct (handleFileSelect_ends p f {| app := s; log := [] |})
    as [(text & v & _ & _ & H) | (e & sent & Hs & H)]; rewrite H.
  - reflexivity.
  - destruct Hs as [-> | ->]; reflexivity.
Qed.

(** A response that parses to a falsy value ([null], [false], [0] or the
    empty string) takes the application to the dashboard view with
    nothing rendered: no event has a handler there, on any platform, so
    the page cannot be left. *)
Theorem falsy_result_is_a_dead_end
  (p : Platform) (f : File) (w : World) (text : jsstring) (v : json)
  (Hctor : newGoogleGenAI p = None)
  (Hread : readFails p f = false)
  (Hans : generateContent p (request f (payload f)) = inr (Some text))
  (Hparse : JSON_parse text = Some v)
  (Hfalsy : truthy v = false) :
  view (app (snd (handleFileSelect p f w))) = dashboard /\
  error (app (snd (handleFileSelect p f w))) = None /\
  render (app (snd (handleFileSelect p f w))) = Blank /\
  forall (p' : Platform) (e : Event),
    dispatch p' (app (snd (handleFileSelect p f w))) e = None.
Proof.
  pose proof (handleFileSelect_cases p f w) as H. cbv zeta in H.
  rewrite Hctor, Hread, Hans in H.
  destruct text as [|c t]; [rewrite JSON_parse_empty in Hparse; discriminate|].
  rewrite Hparse in H. rewrite H. cbn [snd app].
  split; [reflexivity|]. split; [reflexivity|].
  split.
  - unfold render, succeeded. cbn [view data]. rewrite Hfalsy. reflexivity.
  - intros p' e. rewrite dispatch_cases. unfold succeeded. cbn [view data].
    rewrite Hfalsy. reflexivity.
Qed.

Lemma falsy_result_is_a_dead_end_witness :
  view (app (snd (handleFileSelect (answering (Some (lit "null"))) paper_pdf
                                   {| app := initial; log := [] |}))) = dashboard /\
  error (app (snd (handleFileSelect (answering (Some (lit "null"))) paper_pdf
                                    {| app := initial; log := [] |}))) = None /\
  render (app (snd (handleFileSelect (answering (Some (lit "null"))) paper_pdf
                                     {| app := initial; log := [] |}))) = Blank /\
  forall (p' : Platform) (e : Event),
    dispatch p' (app (snd (handleFileSelect (answering (Some (lit "null")))
                                            paper_pdf
                                            {| app := initial; log := [] |}))) e
      = None.
Proof.
  apply (falsy_result_is_a_dead_end (answering (Some (lit "null"))) paper_pdf
           {| app := initial; log := [] |} (lit "null") JNull).
  - reflexivity.
  - reflexivity.
  - reflexivity.
  - reflexivity.
  - reflexivity.
Defined.

Lemma some_pair {A B} (x : A * B) (a : A) (b : B) :
  Some x = Some (a, b) -> a = fst x /\ b = snd x.
Proof. intros [= ->]. auto. Qed.

Lemma dispatch_fired (p : Platform) (s : AppState) (e : Event)
  (r : exn + unit) (w' : World) :
  dispatch p s e = Some (r, w') -> Fired p s e r w'.
Proof.
  rewrite dispatch_cases. intros H.
  destruct (view s) eqn:Hv; [|discriminate H|].
  - destruct e as [[|f fs]|[|f fs]| | | |]; try discriminate H;
      apply some_pair in H; destruct H as [-> ->].
    + apply fired_no_file; auto.
    + destruct (validate f) as [|[]] eqn:V.
      * apply (fired_submitted p s (DropFiles (f :: fs)) f fs); auto.
      * apply (fired_rejected p s (DropFiles (f :: fs)) f fs); auto.
    + apply fired_no_file; auto.
    + destruct (validate f) as [|[]] eqn:V.
      * apply (fired_submitted p s (ChooseFiles (f :: fs)) f fs); auto.
      * apply (fired_rejected p s (ChooseFiles (f :: fs)) f fs); auto.
  - destruct (truthy (data s)) eqn:Ht; [|discriminate H].
    destruct e; try discriminate H;
      apply some_pair in H; destruct H as [-> ->].
    + apply fired_logo; auto.
    + apply fired_print; auto.
    + apply fired_export; auto.
    + apply fired_tab; auto.
Qed.

(** Printing and downloading happen only from a dashboard that shows a
    result, and only by the print and export buttons: no event of the
    upload or processing view, and no submission, prints or downloads. *)
Theorem print_and_download_need_dashboard
  (p : Platform) (s : AppState) (e : Event) (r : exn + unit) (w' : World)
  (H : dispatch p s e = Some (r, w'))
  (Hin : In WindowPrint (log w') \/ exists nm b, In (Download nm b) (log w')) :
  view s = dashboard /\ truthy (data s) = true /\
  (e = ClickPrint \/ e = ClickExport).
Proof.
  assert (Hno : forall l, log w' = l -> forallb pipeline_effect l = true -> False).
  { intros l Hl Hall. rewrite Hl in Hin. rewrite forallb_forall in Hall.
    destruct Hin as [Hin | (nm & b & Hin)]; apply Hall in Hin; discriminate Hin. }
  destruct (dispatch_fired p s e r w' H); auto; exfalso.
  - apply (Hno [] eq_refl eq_refl).
  - cbn [log In] in Hin.
    destruct Hin as [[Hin | []] | (nm & b & [Hin | []])]; discriminate Hin.
  - apply (Hno _ eq_refl). apply handleFileSelect_effects.
  - apply (Hno _ eq_refl eq_refl).
  - cbn [log In] in Hin.
    destruct Hin as [[Hin | []] | (nm & b & [Hin | []])]; discriminate Hin.
Qed.

Lemma print_and_download_need_dashboard_witness :
  view sample_ready = dashboard /\ truthy (data sample_ready) = true /\
  (ClickPrint = ClickPrint \/ ClickPrint = ClickExport).
Proof.
  apply (print_and_download_need_dashboard (answering None) sample_ready
           ClickPrint (inr tt) {| app := sample_ready; log := [WindowPrint] |}).
  - reflexivity.
  - left. left. reflexivity.
Defined.

Lemma handleFileSelect_returns (p : Platform) (f : File) (w : World) :
  fst (handleFileSelect p f w) = inr tt.
Proof.
  destruct (handleFileSelect_ends p f w)
    as [(text & v & _ & _ & H) | (e & sent & _ & H)]; rewrite H; reflexivity.
Qed.

(** An event sends at most one request to the service, and only when it
    submits an accepted file from the upload view; the request is for the
    first file of the event, however many files come with it. *)
Theorem one_request_per_event
  (p : Platform) (s : AppState) (e : Event) (r : exn + unit) (w' : World)
  (H : dispatch p s e = Some (r, w')) :
  requests_sent (log w') = [] \/
  exists f rest,
    (e = DropFiles (f :: rest) \/ e = ChooseFiles (f :: rest)) /\
    view s = upload /\
    validate f = Accepted /\
    requests_sent (log w') = [request f (payload f)].
Proof.
  destruct (dispatch_fired p s e r w' H) as
    [e Hv He | e f rest Hv He Hrej | e f rest Hv He Hacc | | | |];
    try (left; reflexivity).
  - destruct (handleFileSelect_requests p f s) as [Hr | Hr]; cbv zeta in Hr.
    + left. exact Hr.
    + right. exists f, rest. auto.
  - left. rewrite handleDownload_cases. cbn [app log].
    destruct (truthy (data s)); [|reflexivity].
    destruct (title_of (data s)); reflexivity.
Qed.

Lemma one_request_per_event_witness :
  requests_sent
    (log (snd (handleFileSelect (answering (Some (lit "{}"))) paper_pdf
                                {| app := initial; log := [] |}))) = [] \/
  exists f rest,
    (DropFiles [paper_pdf; notes_md] = DropFiles (f :: rest) \/
     DropFiles [paper_pdf; notes_md] = ChooseFiles (f :: rest)) /\
    view initial = upload /\
    validate f = Accepted /\
    requests_sent
      (log (snd (handleFileSelect (answering (Some (lit "{}"))) paper_pdf
                                  {| app := initial; log := [] |})))
      = [request f (payload f)].
Proof.
  apply (one_request_per_event (answering (Some (lit "{}"))) initial
           (DropFiles [paper_pdf; notes_md])
           (fst (handleFileSelect (answering (Some (lit "{}"))) paper_pdf
                                  {| app := initial; log := [] |}))).
  reflexivity.
Defined.

(** The only handler that lets an exception escape is the export, and
    only a [TypeError] for a result whose [metadata.title] is not a
    string; it then leaves state and log untouched. A submission never
    throws: every failure is caught and shown. *)
Theorem only_export_throws
  (p : Platform) (s : AppState) (e : Event) (x : exn) (w' : World)
  (H : dispatch p s e = Some (inl x, w')) :
  e = ClickExport /\
  x = TypeError (typeErrorMessage p) /\
  w' = {| app := s; log := [] |} /\
  title_of (data s) = None.
Proof.
  remember (inl x) as r eqn:Hr.
  destruct (dispatch_fired p s e r w' H) as
    [e Hv He | e f rest Hv He Hrej | e f rest Hv He Hacc | | |Hv Ht|];
    try discriminate Hr.
  - rewrite handleFileSelect_returns in Hr. discriminate Hr.
  - rewrite handleDownload_cases in *. cbn [app log] in *. rewrite Ht in *.
    destruct (title_of (data s)); [discriminate Hr|].
    cbn [fst snd] in *. injection Hr as <-. auto.
Qed.

Lemma only_export_throws_witness :
  ClickExport = ClickExport /\
  TypeError (typeErrorMessage (answering None))
    = TypeError (typeErrorMessage (answering None)) /\
  {| app := bare_ready; log := [] |} = {| app := bare_ready; log := [] |} /\
  title_of (data bare_ready) = None.
Proof.
  apply (only_export_throws (answering None) bare_ready ClickExport
           (TypeError (typeErrorMessage (answering None)))
           {| app := bare_ready; log := [] |}).
  reflexivity.
Defined.

(** Whatever a submission transmits decodes to the submitted file: every
    request it sends carries, as its first part, a base-64 text whose
    decoding is exactly the file's bytes, followed by the fixed
    instruction. (For a declared media type free of commas.) *)
Theorem transmitted_bytes_are_the_file
  (p : Platform) (f : File) (s : AppState) (req : GenerateContentParameters)
  (Htype : ~ In comma (type f))
  (Hsent : In req (requests_sent
                     (log (snd (handleFileSelect p f {| app := s; log := [] |}))))) :
  exists tag b64,
    parts req = [InlineData tag (Some b64); Text instruction] /\
    base64_decode b64 = Some (content f) /\
    model req = lit "gemini-2.5-flash" /\
    responseMimeType req = lit "application/json" /\
    responseSchema req = analysisSchema.
Proof.
  destruct (handleFileSelect_requests p f s) as [Hr | Hr];
    cbv zeta in Hr; rewrite Hr in Hsent; cbn [In] in Hsent; [contradiction|].
  destruct Hsent as [<- | []].
  exists (inlineMimeType f), (base64_encode (content f)).
  unfold request. cbn [parts model responseMimeType responseSchema].
  rewrite payload_is_base64 by assumption.
  repeat split. apply base64_roundtrip.
Qed.

Lemma transmitted_bytes_are_the_file_witness :
  exists tag b64,
    parts (request notes_md (payload notes_md))
      = [InlineData tag (Some b64); Text instruction] /\
    base64_decode b64 = Some (content notes_md) /\
    model (request notes_md (payload notes_md)) = lit "gemini-2.5-flash" /\
    responseMimeType (request notes_md (payload notes_md))
      = lit "application/json" /\
    responseSchema (request notes_md (payload notes_md)) = analysisSchema.
Proof.
  apply (transmitted_bytes_are_the_file (answering (Some (lit "{}"))) notes_md
           initial).
  - simpl. tauto.
  - left. reflexivity.
Defined.

(** The stored result changes only by a submission that succeeds: after
    any event that leaves [data] different, the view is the dashboard, no
    error is set, and the new [data] is what [JSON.parse] made of the
    service's answer to the submitted file. *)
Theorem data_changes_only_on_success
  (p : Platform) (s : AppState) (e : Event) (r : exn + unit) (w' : World)
  (H : dispatch p s e = Some (r, w'))
  (Hch : data (app w') <> data s) :
  view s = upload /\
  view (app w') = dashboard /\
  error (app w') = None /\
  exists f rest text,
    (e = DropFiles (f :: rest) \/ e = ChooseFiles (f :: rest)) /\
    generateContent p (request f (payload f)) = inr (Some text) /\
    JSON_parse text = Some (data (app w')).
Proof.
  destruct (dispatch_fired p s e r w' H) as
    [e Hv He | e f rest Hv He Hrej | e f rest Hv He Hacc | | | |];
    try (exfalso; apply Hch; reflexivity).
  - destruct (handleFileSelect_ends p f {| app := s; log := [] |})
      as [(text & v & Hans & Hp & Hrun) | (x & sent & _ & Hrun)];
      rewrite Hrun in *; cbn [snd app] in *.
    + split; [assumption|]. split; [reflexivity|]. split; [reflexivity|].
      exists f, rest, text. auto.
    + exfalso. apply Hch. reflexivity.
  - exfalso. apply Hch. rewrite handleDownload_state. reflexivity.
Qed.

Lemma data_changes_only_on_success_witness :
  view initial = upload /\
  view (succeeded initial (JObject [])) = dashboard /\
  error (succeeded initial (JObject [])) = None /\
  exists f rest text,
    (DropFiles [paper_pdf] = DropFiles (f :: rest) \/
     DropFiles [paper_pdf] = ChooseFiles (f :: rest)) /\
    generateContent (answering (Some (lit "{}"))) (request f (payload f))
      = inr (Some text) /\
    JSON_parse text = Some (data (succeeded initial (JObject []))).
Proof.
  apply (data_changes_only_on_success (answering (Some (lit "{}"))) initial
           (DropFiles [paper_pdf]) (inr tt)
           {| app := succeeded initial (JObject []);
              log := [SetView processing; SetError None;
                      CallGenerateContent (request paper_pdf (payload paper_pdf));
                      SetData (JObject []); SetView dashboard] |}).
  - reflexivity.
  - discriminate.
Defined.

(** The selected tab changes only by a click on a tab of the dashboard:
    submissions, rejections, the return to the upload view, printing and
    exporting all leave it, so a new result opens on the tab that was
    selected last. *)
Theorem tab_changes_only_by_click
  (p : Platform) (s : AppState) (e : Event) (r : exn + unit) (w' : World)
  (H : dispatch p s e = Some (r, w'))
  (Hch : activeTab (app w') <> activeTab s) :
  e = ClickTab (activeTab (app w')) /\ view s = dashboard /\
  view (app w') = dashboard /\ data (app w') = data s.
Proof.
  destruct (dispatch_fired p s e r w' H) as
    [e Hv He | e f rest Hv He Hrej | e f rest Hv He Hacc | | | |Hv Ht];
    try (exfalso; apply Hch; reflexivity).
  - exfalso. apply Hch.
    destruct (handleFileSelect_ends p f {| app := s; log := [] |})
      as [(text & v & _ & _ & Hrun) | (x & sent & _ & Hrun)];
      rewrite Hrun; reflexivity.
  - exfalso. apply Hch. rewrite handleDownload_state. reflexivity.
  - cbn [app activeTab]. auto.
Qed.

Lemma tab_changes_only_by_click_witness :
  ClickTab visuals
    = ClickTab (activeTab (app {| app := {| view := dashboard; activeTab := visuals;
                                            data := sample_result; error := None |};
                                  log := [SetActiveTab visuals] |})) /\
  view sample_ready = dashboard /\
  view (app {| app := {| view := dashboard; activeTab := visuals;
                         data := sample_result; error := None |};
               log := [SetActiveTab visuals] |}) = dashboard /\
  data (app {| app := {| view := dashboard; activeTab := visuals;
                         data := sample_result; error := None |};
               log := [SetActiveTab visuals] |}) = data sample_ready.
Proof.
  apply (tab_changes_only_by_click (answering None) sample_ready
           (ClickTab visuals) (inr tt)).
  - reflexivity.
  - discriminate.
Defined.

(** Submission and export compose: when the service's answer parses to a
    value of the declared type, dropping an accepted file on the upload
    view leads to the dashboard with that value, and the export click that
    follows downloads the report of that very answer under the slug of its
    title. *)
Theorem submit_then_export
  (p : Platform) (s : AppState) (f : File) (rest : list File)
  (text : jsstring) (v : json) (d : AnalysisData)
  (Hv : view s = upload)
  (Hacc : validate f = Accepted)
  (Hctor : newGoogleGenAI p = None)
  (Hread : readFails p f = false)
  (Hans : generateContent p (request f (payload f)) = inr (Some text))
  (Hparse : JSON_parse text = Some v)
  (Htyped : as_AnalysisData v = Some d) :
  dispatch p s (DropFiles (f :: rest))
    = Some (inr tt,
            {| app := succeeded s v;
               log := [SetView processing; SetError None;
                       CallGenerateContent (request f (payload f));
                       SetData v; SetView dashboard] |}) /\
  dispatch p (succeeded s v) ClickExport
    = Some (inr tt,
            {| app := succeeded s v;
               log := [Download
                         (replace_ws [underscore] (title (metadata d))
                          ++ lit "_Notes.md")
                         {| blobParts := [Some (JString (fullMarkdownReport d))];
                            blobType := lit "text/markdown" |}] |}).
Proof.
  split.
  - rewrite dispatch_cases, Hv, Hacc.
    pose proof (handleFileSelect_cases p f {| app := s; log := [] |}) as H.
    cbv zeta in H. rewrite Hctor, Hread, Hans in H.
    destruct text as [|c t]; [rewrite JSON_parse_empty in Hparse; discriminate|].
    rewrite Hparse in H. rewrite H. reflexivity.
  - destruct (as_AnalysisData_fields v d Htyped)
      as ((members & Hobj) & Hrep & ms & Hmeta & Htitle).
    assert (Ht : truthy v = true) by (rewrite Hobj; reflexivity).
    assert (Hti : title_of v = Some (title (metadata d))).
    { unfold title_of. rewrite Hmeta. cbn [get]. rewrite Htitle. reflexivity. }
    rewrite dispatch_cases, handleDownload_cases.
    unfold export_blob, succeeded. cbn [view data app log].
    rewrite Ht, Hti, Hrep. reflexivity.
Qed.

Lemma submit_then_export_witness :
  dispatch (answering (Some sample_text)) initial (DropFiles [paper_pdf])
    = Some (inr tt,
            {| app := succeeded initial sample_parsed;
               log := [SetView processing; SetError None;
                       CallGenerateContent (request paper_pdf (payload paper_pdf));
                       SetData sample_parsed; SetView dashboard] |}) /\
  dispatch (answering (Some sample_text)) (succeeded initial sample_parsed)
           ClickExport
    = Some (inr tt,
            {| app := succeeded initial sample_parsed;
               log := [Download
                         (replace_ws [underscore] (lit "On  Liberty")
                          ++ lit "_Notes.md")
                         {| blobParts := [Some (JString (lit "# Notes"))];
                            blobType := lit "text/markdown" |}] |}).
Proof.
  apply (submit_then_export (answering (Some sample_text)) initial paper_pdf []
           sample_text sample_parsed
           {| metadata := {| title := lit "On  Liberty"; author := lit "Mill";
                             genre := lit "Essay"; readingTime := lit "3h" |};
              executiveSummary := lit "S";
              keyConcepts := []; chapterBreakdown := []; topicStats := [];
              fullMarkdownReport := lit "# Notes" |}).
  - reflexivity.
  - reflexivity.
  - reflexivity.
  - reflexivity.
  - reflexivity.
  - reflexivity.
  - reflexivity.
Defined.

(* ------------------------------------------------------------------ *)
(** ** The views and the drop zone                                     *)
(* ------------------------------------------------------------------ *)

Lemma mapi_from_rows (k : nat) (l : list Chapter.t) :
  map rowNumber (mapi_from k ChapterRow l) = seq (k + 1) (length l) /\
  map rowTitle (mapi_from k ChapterRow l) = map Chapter.title l /\
  map rowSummary (mapi_from k ChapterRow l) = map Chapter.summary l /\
  map rowInsight (mapi_from k ChapterRow l) = map Chapter.insight l.
Proof.
  revert k. induction l as [|c r IH]; intros k; [repeat split|].
  destruct (IH (S k)) as (H1 & H2 & H3 & H4).
  cbn [mapi_from map length seq ChapterRow rowNumber rowTitle rowSummary
       rowInsight].
  rewrite H1, H2, H3, H4. repeat split.
Qed.

(** The overview lists one row per chapter, in document order, numbered
    1, 2, 3, ... without gaps, each with its chapter's own title, summary
    and insight. *)
Theorem overview_numbers_sections (d : AnalysisData) :
  map rowNumber (structuralBreakdown d)
    = seq 1 (length (chapterBreakdown d)) /\
  map rowTitle (structuralBreakdown d)
    = map Chapter.title (chapterBreakdown d) /\
  map rowSummary (structuralBreakdown d)
    = map Chapter.summary (chapterBreakdown d) /\
  map rowInsight (structuralBreakdown d)
    = map Chapter.insight (chapterBreakdown d).
Proof. apply (mapi_from_rows 0). Qed.

Local Open Scope Q_scope.

(** A concept card shows the stored importance as it is and highlights
    its badge exactly when the importance is above 80: 80 itself is not
    highlighted. *)
Theorem high_impact_threshold (c : KeyConcept) :
  cardImpact (ConceptCard c) = importance c /\
  (cardHighlighted (ConceptCard c) = true <-> 80 < importance c) /\
  (importance c == 80 -> cardHighlighted (ConceptCard c) = false).
Proof.
  unfold ConceptCard. cbn [cardImpact cardHighlighted].
  split; [reflexivity|]. split.
  - rewrite negb_true_iff. split.
    + intros H. apply Qnot_le_lt. intros Hle.
      apply Qle_bool_iff in Hle. congruence.
    + intros H. destruct (Qle_bool (importance c) 80) eqn:E; [|reflexivity].
      apply Qle_bool_iff in E. exfalso. exact (Qlt_not_le _ _ H E).
  - intros H. rewrite negb_false_iff. apply Qle_bool_iff.
    rewrite H. apply Qle_refl.
Qed.

Lemma high_impact_threshold_witness :
  cardHighlighted
    (ConceptCard {| term := lit "Entropy"; definition := lit "Disorder.";
                    importance := 80 |}) = false.
Proof.
  apply (proj2 (proj2 (high_impact_threshold
                         {| term := lit "Entropy"; definition := lit "Disorder.";
                            importance := 80 |}))).
  reflexivity.
Defined.




Local Close Scope Q_scope.

Lemma zoneStep_decides (e : ZoneEvent) (st : bool) :
  zoneStep st e = match decides e with Some b => b | None => st end.
Proof.
  destruct e as [ty|]; [|reflexivity].
  unfold zoneStep, handleDrag, decides.
  destruct (str_eqb ty (lit "dragenter") || str_eqb ty (lit "dragover"));
    [reflexivity|].
  destruct (str_eqb ty (lit "dragleave")); reflexivity.
Qed.

Lemma zoneAfter_undecided (es : list ZoneEvent) (st : bool) :
  Forall (fun e => decides e = None) es -> zoneAfter st es = st.
Proof.
  unfold zoneAfter. revert st.
  induction es as [|e r IH]; intros st H; [reflexivity|].
  inversion H as [|? ? He Hr]; subst. cbn [fold_left].
  rewrite zoneStep_decides, He. apply IH. exact Hr.
Qed.

(** The highlight of the drop zone depends only on the last event that
    has a say: after any history, a [dragenter] or [dragover] followed
    only by other drag events leaves it on, a [dragleave] or a drop leaves
    it off; events of other types never change it. *)
Theorem highlight_follows_last_event
  (init : bool) (before after : list ZoneEvent) (e : ZoneEvent) (b : bool)
  (He : decides e = Some b)
  (Hafter : Forall (fun x => decides x = None) after) :
  zoneAfter init (before ++ e :: after) = b.
Proof.
  unfold zoneAfter. rewrite fold_left_app. cbn [fold_left].
  rewrite zoneStep_decides, He.
  apply (zoneAfter_undecided after b Hafter).
Qed.

Lemma highlight_follows_last_event_witness :
  zoneAfter false ([Drag (lit "dragenter"); Drag (lit "dragover")]
                   ++ Drag (lit "dragleave") :: [Drag (lit "dragend")]) = false.
Proof.
  apply (highlight_follows_last_event false
           [Drag (lit "dragenter"); Drag (lit "dragover")]
           [Drag (lit "dragend")] (Drag (lit "dragleave")) false).
  - reflexivity.
  - repeat constructor.
Defined.

(** A value that can be read at the declared type [AnalysisData] is an
    object that has every property the response schema requires. *)
Theorem typed_value_has_required_fields (v : json) (d : AnalysisData)
  (H : as_AnalysisData v = Some d) :
  ~ missing_required v /\
  exists members, v = JObject members.
Proof.
  split.
  - intros (k & Hk & Hnone). unfold as_AnalysisData in H.
    cbn [required_fields analysisSchema In] in Hk.
    destruct Hk as [<- | [<- | [<- | [<- | [<- | [<- | []]]]]]];
      rewrite Hnone in H; cbn [as_Metadata as_string as_array] in H;
      try discriminate H;
      repeat match type of H with
             | match ?x with _ => _ end = _ => destruct x; try discriminate H
             end.
  - apply (as_AnalysisData_fields v d H).
Qed.

Lemma typed_value_has_required_fields_witness :
  ~ missing_required sample_result /\
  exists members, sample_result = JObject members.
Proof.
  apply (typed_value_has_required_fields sample_result sample_data).
  reflexivity.
Defined.
